(** * stock_mobile: the client-side fetch, retry, cache and validation code

    A shallow embedding of
      - [src/services/api.ts]            (axios instance, response
        interceptor, [retryApiRequest]),
      - [frontend/src/services/stockService.ts] ([getStockChart] and the
        [useStockChart] hook that consumes it),
      - [frontend/src/components/stock/TopStocksGrid.tsx] (the per-index
        memory cache and its handlers),
    together with the properties of the specification that concern them. *)

From Stdlib Require Import ZArith QArith String Ascii List Bool Lia.
From stdpp Require Import gmap strings list.
Import ListNotations.

Local Open Scope string_scope.
Local Open Scope Z_scope.

(* ===================================================================== *)
(** ** JavaScript values

    The services are typed [any]: they probe whatever the JSON body of the
    response is with truthiness tests, [typeof], [Array.isArray] and
    property reads.  [jsval] is that universe of values. *)
(* ===================================================================== *)

Module Js.

#[local] Set Warnings "-register-all".

Inductive jsval : Type :=
| JUndefined
| JNull
| JBool (b : bool)
| JNum (q : Q)
| JStr (s : string)
| JArr (elems : list jsval)
| JObj (fields : list (string * jsval)).

(** ToBoolean.  Numbers are the finite ones a JSON body can carry. *)
Definition truthy (v : jsval) : bool :=
  match v with
  | JUndefined | JNull => false
  | JBool b => b
  | JNum q => negb (Qeq_bool q 0)
  | JStr s => negb (String.eqb s "")
  | JArr _ | JObj _ => true
  end.

(** The [typeof] operator. *)
Definition typeof (v : jsval) : string :=
  match v with
  | JUndefined => "undefined"
  | JNull => "object"
  | JBool _ => "boolean"
  | JNum _ => "number"
  | JStr _ => "string"
  | JArr _ | JObj _ => "object"
  end.

Definition isArray (v : jsval) : bool :=
  match v with JArr _ => true | _ => false end.

(** Own property of an object literal: first binding of the key. *)
Fixpoint field (k : string) (fs : list (string * jsval)) : jsval :=
  match fs with
  | [] => JUndefined
  | (k', v) :: rest => if String.eqb k k' then v else field k rest
  end.

(** [v.k] for the property names the services read.  A read on
    [null]/[undefined] raises a TypeError in JavaScript; every use below
    is either guarded by a truthiness test on the receiver or models the
    raise explicitly ([nullish]), so [get] answers [JUndefined] there. *)
Definition get (v : jsval) (k : string) : jsval :=
  match v with
  | JObj fs => field k fs
  | JArr l => if String.eqb k "length" then JNum (inject_Z (Z.of_nat (length l))) else JUndefined
  | JStr s => if String.eqb k "length" then JNum (inject_Z (Z.of_nat (String.length s))) else JUndefined
  | _ => JUndefined
  end.

(** The receivers on which a property read or [Object.keys] raises. *)
Definition nullish (v : jsval) : bool :=
  match v with JUndefined | JNull => true | _ => false end.

(** What a [catch] clause can receive: an [Error] instance with its
    message, or any other rejected value. *)
Inductive thrown : Type :=
| ErrorObj (message : string)
| NonError (v : jsval).

(** Message of the TypeError raised by [Object.keys(null)] and by a
    property read on [null]/[undefined]. *)
Definition typeErrorMessage : string := "Cannot convert undefined or null to object".

(** [String.prototype.includes]. *)
Fixpoint includes (needle hay : string) : bool :=
  String.prefix needle hay ||
  match hay with
  | EmptyString => false
  | String _ rest => includes needle rest
  end.

End Js.
Export Js.

(* ===================================================================== *)
(** ** stockService.getStockChart  (stockService.ts, lines 10-85) *)
(* ===================================================================== *)

Module StockService.

(** The predicate of the [filter] callback, lines 43-49: [point] is truthy
    and its six fields have the expected [typeof]. *)
Definition isValid (point : jsval) : bool :=
  truthy point &&
  String.eqb (typeof (get point "timestamp")) "string" &&
  String.eqb (typeof (get point "open")) "number" &&
  String.eqb (typeof (get point "high")) "number" &&
  String.eqb (typeof (get point "low")) "number" &&
  String.eqb (typeof (get point "close")) "number" &&
  String.eqb (typeof (get point "volume")) "number".

(** [response.data.data.data.filter(callback)], lines 42-55.  The callback
    keeps a point when [isValid] and otherwise emits
    [console.warn('Invalid data point:', point)]; the second component is
    the list of points warned about, in order. *)
Fixpoint filterPoints (points : list jsval) : list jsval * list jsval :=
  match points with
  | [] => ([], [])
  | point :: rest =>
      let '(validData, warned) := filterPoints rest in
      if isValid point then (point :: validData, warned)
      else (validData, point :: warned)
  end.

(** How a call of [getStockChart] ends once [api.get] has resolved, and
    the points it warned about. *)
Record chartResult : Type := mkChartResult {
  outcome : thrown + jsval;
  warnings : list jsval
}.

(** The object literal of lines 63-73. *)
Definition newResponse (rd : jsval) (validData : list jsval) : jsval :=
  JObj [ ("success", get rd "success");
         ("data", JObj [ ("symbol", get (get rd "data") "symbol");
                         ("period", get (get rd "data") "period");
                         ("interval", get (get rd "data") "interval");
                         ("data", JArr validData) ]);
         ("message", get rd "message");
         ("timestamp", get rd "timestamp") ].

(** [getStockChart] from the point where [api.get] has resolved with a
    response whose body is [rd] (= [response.data]).
    - line 23, [Object.keys(response.data)], raises on a nullish body;
    - lines 26, 31, 36 are the nested guards;
    - line 38, [Object.keys(response.data.data.data[0])], raises when the
      first point is nullish;
    - line 84 returns the body itself when a guard fails. *)
Definition getStockChart (rd : jsval) : chartResult :=
  if nullish rd then mkChartResult (inl (ErrorObj typeErrorMessage)) []
  else
    if truthy rd && truthy (get rd "success") && truthy (get rd "data") then
      if truthy (get (get rd "data") "data") then
        match get (get rd "data") "data" with
        | JArr (first :: others) =>
            if nullish first then mkChartResult (inl (ErrorObj typeErrorMessage)) []
            else
              let '(validData, warned) := filterPoints (first :: others) in
              mkChartResult (inr (newResponse rd validData)) warned
        | _ => mkChartResult (inr rd) []
        end
      else mkChartResult (inr rd) []
    else mkChartResult (inr rd) [].

(** The whole call.  [net] is how [await api.get(...)] ends: rejected with
    a value, which [getStockChart] lets through (there is no [try]), or
    resolved with a response of body [rd]. *)
Definition getStockChartCall (net : thrown + jsval) : chartResult :=
  match net with
  | inl err => mkChartResult (inl err) []
  | inr rd => getStockChart rd
  end.

End StockService.

(* ===================================================================== *)
(** ** The useStockChart hook  (stockService.ts, lines 284-360) *)
(* ===================================================================== *)

Module UseStockChart.

(** The three [useState] cells of the hook. *)
Record state : Type := mkState {
  data : list jsval;
  loading : bool;
  error : option string
}.

Definition initial : state := mkState [] true None.

Definition setData (d : list jsval) (st : state) : state := mkState d (loading st) (error st).
Definition setLoading (b : bool) (st : state) : state := mkState (data st) b (error st).
Definition setError (e : option string) (st : state) : state := mkState (data st) (loading st) e.

(** The structure test of line 315. *)
Definition validStructure (response : jsval) : bool :=
  truthy response &&
  truthy (get response "success") &&
  truthy (get response "data") &&
  truthy (get (get response "data") "data") &&
  isArray (get (get response "data") "data").

(** The predicate of the re-validation, lines 330-338. *)
Definition isValidPoint (point : jsval) : bool :=
  truthy point &&
  String.eqb (typeof (get point "timestamp")) "string" &&
  String.eqb (typeof (get point "open")) "number" &&
  String.eqb (typeof (get point "high")) "number" &&
  String.eqb (typeof (get point "low")) "number" &&
  String.eqb (typeof (get point "close")) "number" &&
  String.eqb (typeof (get point "volume")) "number".

(** The [catch] clause, lines 348-350. *)
Definition onCatch (err : thrown) (st : state) : state :=
  setError (Some (match err with
                  | ErrorObj message => message
                  | NonError _ => "Failed to fetch chart data"
                  end)) st.

(** The body of the [try], from the resolved [response] on (lines 315-347). *)
Definition onResponse (response : jsval) (st : state) : state :=
  if validStructure response then
    match get (get response "data") "data" with
    | JArr [] => setData [] st
    | JArr (first :: others) =>
        (* lines 327-328: Object.keys / Object.values of the first point *)
        if nullish first then onCatch (ErrorObj typeErrorMessage) st
        else setData (List.filter isValidPoint (first :: others)) st
    | _ => st
    end
  else setError (Some "Invalid chart data structure") st.

(** [fetchChartData], run to completion for the way the network call of
    [getStockChart] ends.  An empty [symbol] returns before anything is
    set; otherwise [finally] always clears [loading]. *)
Definition fetchChartData (symbol : string) (net : thrown + jsval) (st : state) : state :=
  if negb (truthy (JStr symbol)) then st
  else
    let st1 := setError None (setLoading true st) in
    let st2 :=
      match StockService.outcome (StockService.getStockChartCall net) with
      | inr response => onResponse response st1
      | inl err => onCatch err st1
      end in
    setLoading false st2.

End UseStockChart.

(* ===================================================================== *)
(** ** TopStocksGrid: the per-index memory cache  (TopStocksGrid.tsx) *)
(* ===================================================================== *)

Module TopStocksGrid.

(** [interface CacheData], lines 31-35; [timestamp] in epoch milliseconds. *)
Record CacheData : Type := mkCacheData {
  data : jsval;
  timestamp : Z;
  loading : bool
}.

(** The [useState] cells of the component, lines 38-45.  The cell called
    [loading] in the source is [busy] here, the name being taken by the
    field of [CacheData]. *)
Record state : Type := mkState {
  topStocks : jsval;
  busy : bool;
  error : option string;
  selectedIndex : string;
  lastUpdated : option Z;
  cache : gmap string CacheData
}.

Definition initial : state := mkState (JArr []) false None "all" None ∅.

Definition setTopStocks (v : jsval) (st : state) : state :=
  mkState v (busy st) (error st) (selectedIndex st) (lastUpdated st) (cache st).
Definition setLoading (b : bool) (st : state) : state :=
  mkState (topStocks st) b (error st) (selectedIndex st) (lastUpdated st) (cache st).
Definition setError (e : option string) (st : state) : state :=
  mkState (topStocks st) (busy st) e (selectedIndex st) (lastUpdated st) (cache st).
Definition setSelectedIndex (i : string) (st : state) : state :=
  mkState (topStocks st) (busy st) (error st) i (lastUpdated st) (cache st).
Definition setLastUpdated (d : option Z) (st : state) : state :=
  mkState (topStocks st) (busy st) (error st) (selectedIndex st) d (cache st).
(** [setCache(prev => f(prev))]: the updater sees the latest cache. *)
Definition setCache (f : gmap string CacheData → gmap string CacheData) (st : state) : state :=
  mkState (topStocks st) (busy st) (error st) (selectedIndex st) (lastUpdated st) (f (cache st)).

Definition CACHE_DURATION : Z := 5 * 60 * 1000.

(** Lines 48-50; [now] is [Date.now()]. *)
Definition isCacheValid (now : Z) (cacheData : CacheData) : bool :=
  now - timestamp cacheData <? CACHE_DURATION.

(** The test of line 106, [cachedData && isCacheValid(cachedData)], on the
    entry of [indexName] in the cache [seen] by the handler. *)
Definition servedFromCache (seen : gmap string CacheData) (indexName : string) (now : Z) : bool :=
  match seen !! indexName with
  | Some cachedData => isCacheValid now cachedData
  | None => false
  end.

(** The two service calls [fetchStocks] chooses between, lines 60-64. *)
Inductive request : Type :=
| GetTopMarketCapStocks
| GetIndexStocks (indexName : string).

Definition requestFor (indexName : string) : request :=
  if String.eqb indexName "all" then GetTopMarketCapStocks else GetIndexStocks indexName.

(** TypeError message of a property read on [null]/[undefined]. *)
Definition readErrorMessage (receiver : jsval) (prop : string) : string :=
  String.append "Cannot read properties of "
    (String.append (match receiver with JNull => "null" | _ => "undefined" end)
       (String.append " (reading '" (String.append prop "')"))).

Definition timeoutNotice : string :=
  "데이터 로딩 시간이 초과되었습니다. 잠시 후 다시 시도해주세요.".

(** [fetchStocks] up to its [await], lines 53-64: the two setters, then
    the service call is issued. *)
Definition fetchStocks_begin (indexName : string) (st : state) : state * request :=
  (setError None (setLoading true st), requestFor indexName).

(** The [catch] clause, lines 85-93. *)
Definition fetchStocks_catch (err : thrown) (st : state) : state :=
  let errorMessage := match err with
                      | ErrorObj message => message
                      | NonError _ => "Failed to fetch stocks"
                      end in
  let st1 := setError (Some errorMessage) st in
  if includes "timeout" errorMessage then setError (Some timeoutNotice) st1 else st1.

(** [fetchStocks] from its [await] on, lines 66-96.  [net] is how the
    service call ended, [now] is [new Date()].  The service functions
    return the body of the response or re-throw. *)
Definition fetchStocks_resume (indexName : string) (now : Z) (net : thrown + jsval)
    (st : state) : state :=
  let st' :=
    match net with
    | inl err => fetchStocks_catch err st
    | inr response =>
        if nullish response then
          fetchStocks_catch (ErrorObj (readErrorMessage response "success")) st
        else if truthy (get response "success") then
          let stockData := get response "data" in
          let st1 := setTopStocks stockData st in
          let st2 := setLastUpdated (Some now) st1 in
          let st3 := setCache (λ prev, <[indexName := mkCacheData stockData now false]> prev) st2 in
          (* line 81 reads stockData.length *)
          if nullish stockData then
            fetchStocks_catch (ErrorObj (readErrorMessage stockData "length")) st3
          else st3
        else setError (Some "Failed to fetch stocks") st
    end in
  setLoading false st'.

(** [handleIndexChange] up to the [await] inside [fetchStocks], lines
    99-128.  [seen] is the [cache] captured by the closure (the
    [useCallback] dependency), [now] the clock.  The answer carries the
    service call issued, if any; after the [await] nothing follows but the
    rest of [fetchStocks]. *)
Definition handleIndexChange (seen : gmap string CacheData) (indexName : string) (now : Z)
    (st : state) : state * option request :=
  let st1 := setError None (setSelectedIndex indexName st) in
  let miss :=
    let st2 := setCache (λ prev, <[indexName := mkCacheData (JArr []) now true]> prev) st1 in
    let '(st3, req) := fetchStocks_begin indexName st2 in
    (st3, Some req) in
  match seen !! indexName with
  | Some cachedData =>
      if isCacheValid now cachedData then
        (setLoading false (setLastUpdated (Some (timestamp cachedData))
                             (setTopStocks (data cachedData) st1)), None)
      else miss
  | None => miss
  end.

(** [handleManualRefresh], lines 130-134; [seenIndex] is the
    [selectedIndex] captured by the closure. *)
Definition handleManualRefresh (seenIndex : string) (st : state) : state * request :=
  fetchStocks_begin seenIndex st.

(** Line 169: what the render shows as loading.  The buttons bound to
    [handleManualRefresh] are rendered only when this is false. *)
Definition isLoading (st : state) : bool :=
  busy st || match cache st !! selectedIndex st with
             | Some currentCacheData => loading currentCacheData
             | None => false
             end.

(** The component with its outstanding service calls: [inflight] lists,
    oldest first, the argument of every [fetchStocks] that is suspended at
    its [await]. *)
Record world : Type := mkWorld {
  comp : state;
  inflight : list string
}.

Inductive event : Type :=
| IndexChange (indexName : string)     (* an index button is clicked *)
| ManualRefresh                        (* a refresh button is clicked *)
| Settle (indexName : string) (net : thrown + jsval).
                                       (* the oldest call for indexName ends *)

Fixpoint removeFirst (k : string) (l : list string) : list string :=
  match l with
  | [] => []
  | x :: rest => if String.eqb k x then rest else x :: removeFirst k rest
  end.

Definition outstanding (k : string) (w : world) : nat :=
  length (List.filter (String.eqb k) (inflight w)).

(** One event at clock [now]; handlers run with the closures of the
    latest render. *)
Definition step (w : world) (te : Z * event) : world :=
  let '(now, ev) := te in
  match ev with
  | IndexChange indexName =>
      let '(st', req) := handleIndexChange (cache (comp w)) indexName now (comp w) in
      mkWorld st' (inflight w ++ match req with Some _ => [indexName] | None => [] end)
  | ManualRefresh =>
      let '(st', _) := handleManualRefresh (selectedIndex (comp w)) (comp w) in
      mkWorld st' (inflight w ++ [selectedIndex (comp w)])
  | Settle indexName net =>
      if 0 <? outstanding indexName w then
        mkWorld (fetchStocks_resume indexName now net (comp w)) (removeFirst indexName (inflight w))
      else w
  end%nat.

Definition run (w : world) (tes : list (Z * event)) : world := fold_left step tes w.

Definition mounted : world := mkWorld initial [].

(** How a service call ends without a listing: rejected, resolved with no
    body, or resolved with a body whose [success] is falsy. *)
Definition failed (net : thrown + jsval) : bool :=
  match net with
  | inl _ => true
  | inr response => nullish response || negb (truthy (get response "success"))
  end.

End TopStocksGrid.

(* ===================================================================== *)
(** ** services/api.ts: the response interceptor and retryApiRequest *)
(* ===================================================================== *)

Module Api.

(** *** The axios instance and its response interceptor, lines 25-74 *)

Record requestConfig : Type := mkConfig {
  method : string;
  url : string
}.

Record AxiosResponse : Type := mkResponse {
  status : Z;
  body : jsval
}.

Record AxiosError : Type := mkAxiosError {
  code : option string;
  message : string;
  config : option requestConfig
}.

(** Line 56. *)
Definition isTimeoutError (error : AxiosError) : bool :=
  match code error with
  | Some c => String.eqb c "ECONNABORTED"
  | None => false
  end || includes "timeout" (message error).

(** What the interceptor chain did: the configs handed to the network, in
    order, and the delays slept through. *)
Record trace : Type := mkTrace {
  sent : list requestConfig;
  sleeps : list Z
}.

Definition noTrace : trace := mkTrace [] [].

(** The network below the instance: how the [n]-th request handed to it
    (counting from 0) ends. *)
Definition adapter : Type := nat → requestConfig → AxiosError + AxiosResponse.

(** [api.request(config)].  The request interceptor returns the config
    unchanged; the outcome of the network goes through the response
    interceptor: a response is returned, a timeout error that carries its
    config sleeps 3000 ms and returns [api.request(originalRequest)], whose
    outcome becomes the outcome (the promise is returned without [await],
    so the surrounding [catch] never runs), and any other error is
    rejected.  [fuel] bounds the number of network requests observed;
    [None] means the promise has not settled within them. *)
Fixpoint request (fuel : nat) (net : adapter) (cfg : requestConfig) (tr : trace)
    : option (AxiosError + AxiosResponse) * trace :=
  match fuel with
  | O => (None, tr)
  | S fuel' =>
      let tr1 := mkTrace (sent tr ++ [cfg]) (sleeps tr) in
      match net (length (sent tr)) cfg with
      | inr response => (Some (inr response), tr1)
      | inl error =>
          if isTimeoutError error then
            match config error with
            | Some originalRequest =>
                request fuel' net originalRequest (mkTrace (sent tr1) (sleeps tr1 ++ [3000]))
            | None => (Some (inl error), tr1)
            end
          else (Some (inl error), tr1)
      end
  end.

(** Number of requests the interceptor issued on its own. *)
Definition interceptorRetries (tr : trace) : nat := length (sleeps tr).

(** *** retryApiRequest, lines 160-181 *)

Section Retry.

(** [T]: what [requestFn] resolves with; [E]: what it rejects with; [W]:
    whatever state of the outside world decides how a call ends. *)
Variables T E W : Type.
Variable requestFn : W → (E + T) * W.

Record effects : Type := mkEffects {
  invocations : nat;      (* calls of requestFn *)
  waits : list Z          (* the setTimeout delays awaited, in order *)
}.

(** How the returned promise settles.  [Rejected None] is
    [throw lastError] with [lastError] never assigned: the thrown value
    is [undefined]. *)
Inductive settled : Type :=
| Resolved (value : T)
| Rejected (lastError : option E).

(** The [for] loop from iteration [i] on, followed by the final [throw].
    [fuel] bounds the iterations still to run. *)
Fixpoint retryLoop (fuel : nat) (maxRetries delay i : Z) (lastError : option E)
    (w : W) (fx : effects) : option (settled * W * effects) :=
  if i <? maxRetries then
    match fuel with
    | O => None
    | S fuel' =>
        let '(r, w1) := requestFn w in
        let fx1 := mkEffects (S (invocations fx)) (waits fx) in
        match r with
        | inr value => Some (Resolved value, w1, fx1)
        | inl error =>
            let fx2 := if i <? maxRetries - 1
                       then mkEffects (invocations fx1) (waits fx1 ++ [delay * (i + 1)])
                       else fx1 in
            retryLoop fuel' maxRetries delay (i + 1) (Some error) w1 fx2
        end
    end
  else Some (Rejected lastError, w, fx).

Definition retryApiRequest (maxRetries delay : Z) (w : W) : option (settled * W * effects) :=
  retryLoop (Z.to_nat maxRetries) maxRetries delay 0 None w (mkEffects 0 []).

End Retry.

Arguments Resolved {T E} value.
Arguments Rejected {T E} lastError.
Arguments retryLoop {T E W} requestFn fuel maxRetries delay i lastError w fx.
Arguments retryApiRequest {T E W} requestFn maxRetries delay w.

End Api.

(* ===================================================================== *)
(** ** Specification-side predicates and concrete inputs *)
(* ===================================================================== *)

Module Spec.

(** A time-series point as the specification describes it: [timestamp] is
    a string and the five OHLCV fields are numbers. *)
Definition wellTyped (point : jsval) : Prop :=
  (∃ s, get point "timestamp" = JStr s) ∧
  (∃ q, get point "open" = JNum q) ∧
  (∃ q, get point "high" = JNum q) ∧
  (∃ q, get point "low" = JNum q) ∧
  (∃ q, get point "close" = JNum q) ∧
  (∃ q, get point "volume" = JNum q).

End Spec.

Module Samples.

Definition num (z : Z) : jsval := JNum (inject_Z z).

(** [{timestamp:"t1",open:1,high:2,low:0.5,close:1.5,volume:100}] *)
Definition point1 : jsval :=
  JObj [ ("timestamp", JStr "t1"); ("open", num 1); ("high", num 2);
         ("low", JNum (1 # 2)); ("close", JNum (3 # 2)); ("volume", num 100) ].

(** [{timestamp:"t2",open:"bad",high:2,low:0.5,close:1.5,volume:100}] *)
Definition point2 : jsval :=
  JObj [ ("timestamp", JStr "t2"); ("open", JStr "bad"); ("high", num 2);
         ("low", JNum (1 # 2)); ("close", JNum (3 # 2)); ("volume", num 100) ].

Definition chartBody (success : jsval) (points : list jsval) : jsval :=
  JObj [ ("success", success);
         ("data", JObj [ ("symbol", JStr "AAPL"); ("period", JStr "1y");
                         ("interval", JStr "1d"); ("data", JArr points) ]);
         ("message", JStr "ok");
         ("timestamp", JStr "2024-01-01T00:00:00Z") ].

(** The two-point series in a success envelope. *)
Definition twoPointBody : jsval := chartBody (JBool true) [point1; point2].

(** A body with [success: false] that still carries a series. *)
Definition refusedBody : jsval := chartBody (JBool false) [point2; point1].

(** A success envelope whose series starts with [null]. *)
Definition nullFirstBody : jsval := chartBody (JBool true) [JNull; point1].

(** The error envelope of the API. *)
Definition errorBody : jsval :=
  JObj [ ("success", JBool false);
         ("error", JObj [ ("code", JStr "NOT_FOUND"); ("message", JStr "no such symbol") ]);
         ("timestamp", JStr "2024-01-01T00:00:00Z") ].

(** A listing response of one stock, and the events of a session. *)
Definition stocksBody : jsval :=
  JObj [ ("success", JBool true);
         ("data", JArr [ JObj [ ("symbol", JStr "AAPL"); ("name", JStr "Apple Inc.");
                                ("price", num 190) ] ]);
         ("timestamp", JStr "2024-01-01T00:00:00Z") ].

Definition stocks : jsval := get stocksBody "data".

Definition networkError : thrown := ErrorObj "Network Error".

(** A request function that rejects with a timeout on every call; the
    world counts the calls it has seen. *)
Definition alwaysTimesOut (calls : nat) : (string + jsval) * nat :=
  (inl "timeout of 30000ms exceeded", S calls).

Definition chartRequest : Api.requestConfig := Api.mkConfig "get" "/api/v1/stock/AAPL/chart".

(** The error axios raises when its 30 s timeout fires. *)
Definition timeoutError (cfg : Api.requestConfig) : Api.AxiosError :=
  Api.mkAxiosError (Some "ECONNABORTED") "timeout of 30000ms exceeded" (Some cfg).

Definition okResponse : Api.AxiosResponse := Api.mkResponse 200 stocksBody.

(** A network on which the first [k] requests time out and every later
    one is answered with [response]. *)
Definition timesOutThen (k : nat) (response : Api.AxiosResponse) : Api.adapter :=
  λ n cfg, if (n <? k)%nat then inl (timeoutError cfg) else inr response.

(** A network on which every request times out. *)
Definition neverAnswers : Api.adapter := λ _ cfg, inl (timeoutError cfg).

End Samples.

(* ===================================================================== *)
(** ** The other service functions and their consumers *)
(* ===================================================================== *)

(** *** mobileUtils: user-agent tests  (api.ts, lines 79-89) *)

Module MobileUtils.

(** Case folding of the [/i] flag.  The alternatives are ASCII, and a
    character outside ASCII never folds onto one, so folding the ASCII
    letters of both sides decides the match; the user agent is given by
    its UTF-8 bytes, in which an ASCII byte is always an ASCII character. *)
Definition lowerAscii (c : ascii) : ascii :=
  let n := nat_of_ascii c in
  if ((65 <=? n) && (n <=? 90))%nat then ascii_of_nat (n + 32) else c.

Fixpoint lower (s : string) : string :=
  match s with
  | EmptyString => EmptyString
  | String c rest => String (lowerAscii c) (lower rest)
  end.

(** [/a|b|c/.test(s)] for literal alternatives. *)
Definition test (alternatives : list string) (s : string) : bool :=
  existsb (λ alt, includes alt s) alternatives.

(** [/a|b|c/i.test(s)]. *)
Definition testIgnoreCase (alternatives : list string) (s : string) : bool :=
  existsb (λ alt, includes (lower alt) (lower s)) alternatives.

Definition isMobile (userAgent : string) : bool :=
  testIgnoreCase ["Android"; "webOS"; "iPhone"; "iPad"; "iPod"; "BlackBerry";
                  "IEMobile"; "Opera Mini"] userAgent.

Definition isIOS (userAgent : string) : bool :=
  test ["iPad"; "iPhone"; "iPod"] userAgent.

Definition isAndroid (userAgent : string) : bool :=
  test ["Android"] userAgent.

End MobileUtils.

(** *** StockChart.handleRangeChange  (StockChart.tsx, lines 88-129) *)

Module StockChart.

Record state : Type := mkState {
  period : string;
  interval : string;
  selectedRange : string
}.

(** Lines 78-82. *)
Definition initial : state := mkState "1d" "1h" "1D".

(** The labels of the range buttons, line 312. *)
Definition rangeButtons : list string :=
  ["1D"; "5D"; "1M"; "3M"; "6M"; "YTD"; "1Y"; "5Y"; "All"].

Definition handleRangeChange (range : string) (st : state) : state :=
  if String.eqb range "1D" then mkState "1d" "1h" range
  else if String.eqb range "5D" then mkState "5d" "1d" range
  else if String.eqb range "1M" then mkState "1mo" "1d" range
  else if String.eqb range "6M" then mkState "6mo" "1d" range
  else if String.eqb range "YTD" then mkState "6mo" "1d" range
  else if String.eqb range "1Y" then mkState "1y" "1d" range
  else if String.eqb range "5Y" then mkState "5y" "1d" range
  else if String.eqb range "All" then mkState "max" "1d" range
  else mkState "1d" "1h" range.

End StockChart.

(** *** getStockInfo and the useStock hook, both versions *)

Module UseStock.

Record state : Type := mkState {
  data : jsval;
  loading : bool;
  error : option string
}.

(** [useState(null)], [useState(true)], [useState(null)]. *)
Definition initial : state := mkState JNull true None.

Definition setData (d : jsval) (st : state) : state := mkState d (loading st) (error st).
Definition setLoading (b : bool) (st : state) : state := mkState (data st) b (error st).
Definition setError (e : option string) (st : state) : state := mkState (data st) (loading st) e.

Definition onCatch (err : thrown) (st : state) : state :=
  setError (Some (match err with
                  | ErrorObj message => message
                  | NonError _ => "Failed to fetch stock data"
                  end)) st.

(** frontend/src/services/stockService.ts, lines 5-8:
    [return response.data.data], for the way [api.get] ends. *)
Definition getStockInfo_frontend (net : thrown + jsval) : thrown + jsval :=
  match net with
  | inl err => inl err
  | inr rd =>
      if nullish rd then inl (ErrorObj (TopStocksGrid.readErrorMessage rd "data"))
      else inr (get rd "data")
  end.

(** The other version of the service (lines 219-230 of the file that also
    holds AuthContext): it logs [response.data.data], returns
    [response.data] and re-throws what it catches. *)
Definition getStockInfo (net : thrown + jsval) : thrown + jsval :=
  match net with
  | inl err => inl err
  | inr rd =>
      if nullish rd then inl (ErrorObj (TopStocksGrid.readErrorMessage rd "data"))
      else inr rd
  end.

(** frontend/src/hooks/useStock.ts, lines 11-26. *)
Definition fetchStock_frontend (symbol : string) (net : thrown + jsval) (st : state) : state :=
  if negb (truthy (JStr symbol)) then st
  else
    let st1 := setError None (setLoading true st) in
    let st2 := match getStockInfo_frontend net with
               | inr stockData => setData stockData st1
               | inl err => onCatch err st1
               end in
    setLoading false st2.

(** src/hooks/useStock.ts, lines 11-33. *)
Definition fetchStock (symbol : string) (net : thrown + jsval) (st : state) : state :=
  if negb (truthy (JStr symbol)) then st
  else
    let st1 := setError None (setLoading true st) in
    let st2 := match getStockInfo net with
               | inr stockData =>
                   if truthy stockData && truthy (get stockData "success")
                      && truthy (get stockData "data")
                   then setData (get stockData "data") st1
                   else setError (Some "Invalid data structure received") st1
               | inl err => onCatch err st1
               end in
    setLoading false st2.

End UseStock.

(** *** searchStocks and StockSearch.handleSearch *)

Module StockSearch.

(** A JavaScript string as its UTF-16 code units: [searchQuery.length]
    counts those. *)
Definition jsstring : Type := list N.

Record state : Type := mkState {
  query : jsstring;
  suggestions : jsval;
  isLoading : bool
}.

Definition initial : state := mkState [] (JArr []) false.

Definition setQuery (q : jsstring) (st : state) : state := mkState q (suggestions st) (isLoading st).
Definition setSuggestions (v : jsval) (st : state) : state := mkState (query st) v (isLoading st).
Definition setIsLoading (b : bool) (st : state) : state := mkState (query st) (suggestions st) b.

(** [a || b]. *)
Definition orElse (a b : jsval) : jsval := if truthy a then a else b.

(** frontend/src/services/stockService.ts, lines 87-92:
    [return response.data.data.suggestions]. *)
Definition searchStocks_frontend (net : thrown + jsval) : thrown + jsval :=
  match net with
  | inl err => inl err
  | inr rd =>
      if nullish rd then inl (ErrorObj (TopStocksGrid.readErrorMessage rd "data"))
      else if nullish (get rd "data")
      then inl (ErrorObj (TopStocksGrid.readErrorMessage (get rd "data") "suggestions"))
      else inr (get (get rd "data") "suggestions")
  end.

(** The other version of the service (lines 316-337 of the file that also
    holds AuthContext). *)
Definition searchStocks (net : thrown + jsval) : thrown + jsval :=
  match net with
  | inl err => inl err
  | inr rd =>
      if truthy rd && truthy (get rd "success") && truthy (get rd "data")
      then inr (orElse (get (get rd "data") "suggestions") (JArr []))
      else inr (JArr [])
  end.

(** [handleSearch], lines 24-47 of StockSearch.  [results] is how the
    call of [stockService.searchStocks] ends; it is consulted only when
    the call is made.  The second component tells whether it was. *)
Definition handleSearch (searchQuery : jsstring) (results : thrown + jsval) (st : state)
    : state * bool :=
  if (length searchQuery <? 2)%nat then (setSuggestions (JArr []) st, false)
  else
    let st1 := setIsLoading true st in
    let st2 := match results with
               | inr r => setSuggestions (orElse r (JArr [])) st1
               | inl _ => setSuggestions (JArr []) st1
               end in
    (setIsLoading false st2, true).

(** Lines 50-54. *)
Definition handleInputChange (value : jsstring) (results : thrown + jsval) (st : state)
    : state * bool :=
  handleSearch value results (setQuery value st).

(** Lines 56-60; the answer carries the symbol handed to [onSelect]. *)
Definition handleSuggestionClick (suggestion : jsval) (st : state) : state * jsval :=
  (setSuggestions (JArr []) (setQuery [] st), get suggestion "symbol").

End StockSearch.

(** *** AuthContext: fetchUserInfo, login, logout  (AuthContext.tsx) *)

Module AuthContext.

(** Calls on [localStorage], in order. *)
Inductive storageOp : Type :=
| SetItem (key : string) (value : jsval)
| RemoveItem (key : string).

(** How one [fetch] ends: rejected (no connection), or resolved with a
    response of which the code reads [ok] and, sometimes, [json()]. *)
Inductive fetchOutcome : Type :=
| FetchRejects (err : thrown)
| FetchResponds (ok : bool) (json : thrown + jsval).

(** The [n]-th [fetch] of the session, counting from 0. *)
Definition network : Type := nat → fetchOutcome.

(** The cells [user], [token], [isLoading] (lines 35-37) with what the
    provider did to the outside: storage calls, alerts, number of fetches. *)
Record world : Type := mkWorld {
  user : jsval;
  token : jsval;
  isLoading : bool;
  storage : list storageOp;
  alerts : list jsval;
  fetches : nat
}.

Definition setUser (v : jsval) (w : world) : world :=
  mkWorld v (token w) (isLoading w) (storage w) (alerts w) (fetches w).
Definition setToken (v : jsval) (w : world) : world :=
  mkWorld (user w) v (isLoading w) (storage w) (alerts w) (fetches w).
Definition setIsLoading (b : bool) (w : world) : world :=
  mkWorld (user w) (token w) b (storage w) (alerts w) (fetches w).
Definition localStorage (op : storageOp) (w : world) : world :=
  mkWorld (user w) (token w) (isLoading w) (storage w ++ [op]) (alerts w) (fetches w).
Definition alert (message : jsval) (w : world) : world :=
  mkWorld (user w) (token w) (isLoading w) (storage w) (alerts w ++ [message]) (fetches w).
Definition fetched (w : world) : world :=
  mkWorld (user w) (token w) (isLoading w) (storage w) (alerts w) (S (fetches w)).

(** Lines 193-197. *)
Definition logout (w : world) : world :=
  localStorage (RemoveItem "token") (setToken JNull (setUser JNull w)).

(** [fetchUserData], lines 85-115; [isMounted] is the cell as the closure
    captured it.  A response that is not [ok] logs out and resolves. *)
Definition fetchUserData (isMounted : bool) (net : network) (w : world)
    : (thrown + unit) * world :=
  if negb isMounted then (inr tt, w)
  else
    let w1 := fetched w in
    match net (fetches w) with
    | FetchRejects err => (inl err, w1)
    | FetchResponds true json =>
        match json with
        | inl err => (inl err, w1)
        | inr userData => (inr tt, if isMounted then setUser userData w1 else w1)
        end
    | FetchResponds false _ => (inr tt, if isMounted then logout w1 else w1)
    end.

(** [fetchUserInfo], lines 84-126: [fetchUserData] under
    [retryApiRequest(fetchUserData, 3, 1000)], logging out when that
    rejects. *)
Definition fetchUserInfo (isMounted : bool) (net : network) (w : world)
    : option (world * Api.effects) :=
  match Api.retryApiRequest (fetchUserData isMounted net) 3 1000 w with
  | Some (Api.Resolved _, w', fx) => Some (w', fx)
  | Some (Api.Rejected _, w', fx) => Some (if isMounted then logout w' else w', fx)
  | None => None
  end.

Definition loginFailed : jsval := JStr "로그인에 실패했습니다.".
Definition loginError : jsval := JStr "로그인 중 오류가 발생했습니다.".

(** [login], lines 129-160, for the way its one [fetch] ends.
    [setItemThrows] tells whether [localStorage.setItem] raises (storage
    disabled or full, the case the probe [isLocalStorageSupported] of
    mobileUtils tests for): it is called after [setToken] and [setUser],
    inside the [try], so the [catch] then runs with both cells written. *)
Definition login (net : network) (setItemThrows : bool) (w : world) : bool * world :=
  let w1 := fetched (setIsLoading true w) in
  let caught (w' : world) := (false, alert loginError w') in
  let '(result, w2) :=
    match net (fetches w) with
    | FetchRejects _ => caught w1
    | FetchResponds _ (inl _) => caught w1
    | FetchResponds true (inr data) =>
        if nullish data then caught w1
        else
          let w' := setUser (get data "user") (setToken (get data "access_token") w1) in
          if setItemThrows then caught w'
          else (true, localStorage (SetItem "token" (get data "access_token")) w')
    | FetchResponds false (inr errorData) =>
        if nullish errorData then caught w1
        else (false, alert (StockSearch.orElse (get errorData "detail") loginFailed) w1)
    end in
  (result, setIsLoading false w2).

Definition registerDone : jsval := JStr "회원가입이 완료되었습니다. 로그인해주세요.".
Definition registerFailed : jsval := JStr "회원가입에 실패했습니다.".
Definition registerError : jsval := JStr "회원가입 중 오류가 발생했습니다.".

(** [register], lines 162-191, for the way its one [fetch] ends. *)
Definition register (net : network) (w : world) : bool * world :=
  let w1 := fetched (setIsLoading true w) in
  let caught := (false, alert registerError w1) in
  let '(result, w2) :=
    match net (fetches w) with
    | FetchRejects _ => caught
    | FetchResponds _ (inl _) => caught
    | FetchResponds true (inr userData) => (true, alert registerDone w1)
    | FetchResponds false (inr errorData) =>
        if nullish errorData then caught
        else (false, alert (StockSearch.orElse (get errorData "detail") registerFailed) w1)
    end in
  (result, setIsLoading false w2).

End AuthContext.

(** *** Specification-side helpers for the properties below *)

Module SpecMore.

(** The world after [k] calls of [requestFn] that all rejected, if the
    first [k] calls do reject. *)
Fixpoint afterRejections {T E W : Type} (requestFn : W → (E + T) * W) (k : nat) (w : W)
    : option W :=
  match k with
  | O => Some w
  | S k' =>
      match requestFn w with
      | (inl _, w1) => afterRejections requestFn k' w1
      | (inr _, _) => None
      end
  end.

(** [delay * from; delay * (from + 1); ...], [k] of them: linear backoff. *)
Fixpoint backoff (delay from : Z) (k : nat) : list Z :=
  match k with
  | O => []
  | S k' => delay * from :: backoff delay (from + 1) k'
  end.

(** [Number.MAX_SAFE_INTEGER]: up to it the integers are JavaScript
    numbers, and sums and products that stay below it are exact. *)
Definition MAX_SAFE_INTEGER : Z := 2 ^ 53 - 1.

(** The index an event of the grid is about. *)
Definition eventIndex (w : TopStocksGrid.world) (ev : TopStocksGrid.event) : string :=
  match ev with
  | TopStocksGrid.IndexChange indexName => indexName
  | TopStocksGrid.ManualRefresh => TopStocksGrid.selectedIndex (TopStocksGrid.comp w)
  | TopStocksGrid.Settle indexName _ => indexName
  end.

End SpecMore.

(* ===================================================================== *)
(** ** Properties of getStockChart and of the hook *)
(* ===================================================================== *)

Section ChartFacts.

Import StockService.

Lemma typeof_string v : String.eqb (typeof v) "string" = true ↔ ∃ s, v = JStr s.
Proof.
  destruct v; simpl; split; intros H; try discriminate; eauto;
    destruct H as [? H]; discriminate.
Qed.

Lemma typeof_number v : String.eqb (typeof v) "number" = true ↔ ∃ q, v = JNum q.
Proof.
  destruct v; simpl; split; intros H; try discriminate; eauto;
    destruct H as [? H]; discriminate.
Qed.

(** Only an object literal answers the read of a field name with a string. *)
Lemma get_string_truthy point k s :
  String.eqb k "length" = false → get point k = JStr s → truthy point = true.
Proof.
  intros Hk. destruct point; simpl; try discriminate; try reflexivity;
    rewrite Hk; discriminate.
Qed.

Lemma isValid_wellTyped point : isValid point = true ↔ Spec.wellTyped point.
Proof.
  unfold isValid, Spec.wellTyped.
  rewrite !andb_true_iff, typeof_string, !typeof_number. split.
  - intros [[[[[[_ ?] ?] ?] ?] ?] ?]. auto 10.
  - intros (Ht & ? & ? & ? & ? & ?). repeat split; auto.
    destruct Ht as [s Ht]. eapply get_string_truthy; [|exact Ht]. reflexivity.
Qed.

Lemma filterPoints_fst points : fst (filterPoints points) = List.filter isValid points.
Proof.
  induction points as [|p rest IH]; simpl; [reflexivity|].
  destruct (filterPoints rest) as [v w]; simpl in *.
  destruct (isValid p); simpl; congruence.
Qed.

Lemma filterPoints_snd points :
  snd (filterPoints points) = List.filter (λ p, negb (isValid p)) points.
Proof.
  induction points as [|p rest IH]; simpl; [reflexivity|].
  destruct (filterPoints rest) as [v w]; simpl in *.
  destruct (isValid p); simpl; congruence.
Qed.

Lemma filterPoints_lengths points :
  (length (fst (filterPoints points)) + length (snd (filterPoints points)) = length points)%nat.
Proof.
  induction points as [|p rest IH]; simpl; [reflexivity|].
  destruct (filterPoints rest) as [v w]; simpl in *.
  destruct (isValid p); simpl; lia.
Qed.

Lemma filter_all_valid points :
  Forall (λ p, isValid p = true) points → filterPoints points = (points, []).
Proof.
  induction 1 as [|p rest Hp _ IH]; simpl; [reflexivity|].
  rewrite IH, Hp. reflexivity.
Qed.

Lemma filtered_all_valid points : Forall (λ p, isValid p = true) (List.filter isValid points).
Proof.
  induction points as [|p rest IH]; simpl; [constructor|].
  destruct (isValid p) eqn:Hp; [constructor|]; assumption.
Qed.

Lemma filter_sublist (f : jsval → bool) points : sublist (List.filter f points) points.
Proof.
  induction points as [|p rest IH]; simpl; [constructor|].
  destruct (f p); [apply sublist_skip | apply sublist_cons]; assumption.
Qed.

Lemma get_array_receiver v k l : get v k = JArr l → ∃ fs, v = JObj fs.
Proof.
  destruct v; simpl; try discriminate; eauto;
    destruct (String.eqb k "length"); discriminate.
Qed.

(** When the guards of lines 26-36 pass and line 38 does not raise, the
    call returns the literal of lines 63-73. *)
Lemma getStockChart_success rd first others :
  truthy (get rd "success") = true →
  get (get rd "data") "data" = JArr (first :: others) →
  nullish first = false →
  getStockChart rd =
    mkChartResult (inr (newResponse rd (fst (filterPoints (first :: others)))))
                  (snd (filterPoints (first :: others))).
Proof.
  intros Hs Hd Hf.
  destruct (get_array_receiver _ _ _ Hd) as [dfs Hdata].
  assert (∃ fs, rd = JObj fs) as [fs ->].
  { destruct rd; simpl in Hdata; try discriminate; eauto;
      destruct (String.eqb "data" "length"); discriminate. }
  assert (Ht : truthy (get (JObj fs) "data") = true) by (rewrite Hdata; reflexivity).
  unfold getStockChart. cbn [nullish truthy].
  rewrite Hs, Ht, Hd. cbn [truthy andb]. rewrite Hf.
  destruct (filterPoints (first :: others)); reflexivity.
Qed.

(** A body that fails the structure test of the hook never reaches the
    literal: the call raises on a nullish body and otherwise returns the
    body itself. *)
Lemma getStockChart_passes_through rd :
  UseStockChart.validStructure rd = false →
  outcome (getStockChart rd) =
    if nullish rd then inl (ErrorObj typeErrorMessage) else inr rd.
Proof.
  unfold UseStockChart.validStructure, getStockChart. intros Hv.
  destruct (nullish rd); [reflexivity|].
  destruct (truthy rd && truthy (get rd "success") && truthy (get rd "data")) eqn:Hg;
    [|reflexivity].
  destruct (truthy (get (get rd "data") "data")) eqn:Hd; [|reflexivity].
  simpl in Hv.
  destruct (get (get rd "data") "data") as [| | | | |[|first others]|]; try reflexivity.
  discriminate Hv.
Qed.

(** C5 (as the code has it).  The filter of [getStockChart] keeps, in
    their order, exactly the points whose [timestamp] is a string and whose
    [open], [high], [low], [close] and [volume] are numbers.  It returns the
    array only: the rejected points are not counted in the result but
    warned about one by one, so their number is the length of the input
    minus the length of the output.  On the two-point series whose second
    point has [open = "bad"] it keeps the first point, warns about the
    second, and [getStockChart] returns normally. *)
Theorem filterPoints_keeps_well_typed (points : list jsval) :
  fst (filterPoints points) = List.filter isValid points ∧
  sublist (fst (filterPoints points)) points ∧
  (∀ p, p ∈ fst (filterPoints points) ↔ p ∈ points ∧ Spec.wellTyped p) ∧
  length (snd (filterPoints points))
    = (length points - length (fst (filterPoints points)))%nat ∧
  filterPoints [Samples.point1; Samples.point2] = ([Samples.point1], [Samples.point2]) ∧
  getStockChart Samples.twoPointBody =
    mkChartResult (inr (newResponse Samples.twoPointBody [Samples.point1])) [Samples.point2].
Proof.
  split; [apply filterPoints_fst|].
  split; [rewrite filterPoints_fst; apply filter_sublist|].
  split.
  { intros p. rewrite filterPoints_fst, !list_elem_of_In, filter_In.
    rewrite isValid_wellTyped. reflexivity. }
  split; [pose proof (filterPoints_lengths points); lia|].
  split; reflexivity.
Qed.

(** C5, as stated, fails: what [getStockChart] returns for the two-point
    series carries no [droppedCount] (and no [valid]) anywhere: not on the
    envelope, not on its [data], not on the filtered array. *)
Lemma getStockChart_has_no_droppedCount :
  ∃ env, outcome (getStockChart Samples.twoPointBody) = inr env ∧
    get env "droppedCount" ≠ Samples.num 1 ∧
    get (get env "data") "droppedCount" ≠ Samples.num 1 ∧
    get (get (get env "data") "data") "droppedCount" ≠ Samples.num 1 ∧
    get env "droppedCount" = JUndefined ∧
    get env "valid" = JUndefined ∧
    get (get (get env "data") "data") "length" = Samples.num 1.
Proof.
  eexists. split; [reflexivity|]. repeat split; discriminate.
Qed.

(** C8.  Filtering is idempotent: a second pass over the valid points of a
    first pass keeps all of them and warns about none; the re-validation of
    the hook (lines 330-338), applied to what [getStockChart] kept, keeps
    all of them as well. *)
Theorem filterPoints_idempotent (points : list jsval) :
  filterPoints (fst (filterPoints points)) = (fst (filterPoints points), []) ∧
  fst (filterPoints (fst (filterPoints points))) = fst (filterPoints points) ∧
  List.filter UseStockChart.isValidPoint (fst (filterPoints points))
    = fst (filterPoints points).
Proof.
  assert (H : filterPoints (fst (filterPoints points)) = (fst (filterPoints points), [])).
  { apply filter_all_valid. rewrite filterPoints_fst. apply filtered_all_valid. }
  split; [exact H|]. split; [rewrite H; reflexivity|].
  change UseStockChart.isValidPoint with isValid.
  rewrite <- filterPoints_fst, H. reflexivity.
Qed.

(** C9 (as the code has it).  When [success] is truthy, the inner [data]
    is a non-empty array and its first element is neither [null] nor
    [undefined], [getStockChart] returns a new object literal whose
    [success], [message], [timestamp], [data.symbol], [data.period] and
    [data.interval] are those of the body received and whose [data.data] is
    the order-preserving subsequence of the points that pass [isValid].
    The body is only read: values of the embedding are immutable. *)
Theorem getStockChart_builds_new_envelope (rd first : jsval) (others : list jsval) :
  truthy (get rd "success") = true →
  get (get rd "data") "data" = JArr (first :: others) →
  nullish first = false →
  ∃ env validData,
    outcome (getStockChart rd) = inr env ∧
    env = newResponse rd validData ∧
    get env "success" = get rd "success" ∧
    get env "message" = get rd "message" ∧
    get env "timestamp" = get rd "timestamp" ∧
    get (get env "data") "symbol" = get (get rd "data") "symbol" ∧
    get (get env "data") "period" = get (get rd "data") "period" ∧
    get (get env "data") "interval" = get (get rd "data") "interval" ∧
    get (get env "data") "data" = JArr validData ∧
    validData = List.filter isValid (first :: others) ∧
    sublist validData (first :: others).
Proof.
  intros Hs Hd Hf.
  exists (newResponse rd (fst (filterPoints (first :: others)))),
         (fst (filterPoints (first :: others))).
  rewrite (getStockChart_success _ _ _ Hs Hd Hf).
  repeat split; try reflexivity.
  - apply filterPoints_fst.
  - rewrite filterPoints_fst. apply filter_sublist.
Qed.

Lemma getStockChart_builds_new_envelope_witness :
  ∃ env validData,
    outcome (getStockChart Samples.twoPointBody) = inr env ∧
    env = newResponse Samples.twoPointBody validData ∧
    get env "success" = JBool true ∧
    get (get env "data") "data" = JArr [Samples.point1].
Proof.
  destruct (getStockChart_builds_new_envelope Samples.twoPointBody Samples.point1
              [Samples.point2] eq_refl eq_refl eq_refl)
    as (env & validData & Ho & He & Hsucc & _ & _ & _ & _ & _ & Hdd & Hv & _).
  exists env, validData. repeat split; try assumption.
  rewrite Hdd, Hv. reflexivity.
Defined.

(** C9, as stated, fails on two bodies that carry a non-empty inner array.
    With [success: false] the body itself comes back, invalid points
    included; with [null] as first point the call raises. *)
Lemma getStockChart_not_always_new_envelope :
  (outcome (getStockChart Samples.refusedBody) = inr Samples.refusedBody ∧
   get (get Samples.refusedBody "data") "data" = JArr [Samples.point2; Samples.point1] ∧
   JArr [Samples.point2; Samples.point1]
     ≠ JArr (List.filter isValid [Samples.point2; Samples.point1])) ∧
  (get (get Samples.nullFirstBody "data") "data" = JArr [JNull; Samples.point1] ∧
   outcome (getStockChart Samples.nullFirstBody) = inl (ErrorObj typeErrorMessage)).
Proof.
  repeat split; discriminate.
Qed.

End ChartFacts.

Section HookFacts.

Import UseStockChart.

Lemma truthy_symbol symbol : symbol ≠ "" → truthy (JStr symbol) = true.
Proof.
  intros Hne. simpl. destruct (String.eqb_spec symbol ""); [contradiction|reflexivity].
Qed.

(** C6.  A body that fails the structure test of line 315 (falsy
    [success], missing [data], inner [data] missing or not an array, or no
    body at all) ends the fetch of the hook in its error state:
    [getStockChart] hands such a body on as it is, or raises on a nullish
    one, and the hook then sets [error], leaves [data] as it was and clears
    [loading].  No such body reaches [setData]. *)
Theorem invalid_structure_surfaces_error (symbol : string) (rd : jsval) (st : state) :
  symbol ≠ "" →
  validStructure rd = false →
  error (fetchChartData symbol (inr rd) st)
    = Some (if nullish rd then typeErrorMessage else "Invalid chart data structure") ∧
  data (fetchChartData symbol (inr rd) st) = data st ∧
  loading (fetchChartData symbol (inr rd) st) = false.
Proof.
  intros Hsym Hv. unfold fetchChartData.
  rewrite (truthy_symbol _ Hsym). cbn [negb StockService.getStockChartCall].
  rewrite (getStockChart_passes_through rd Hv).
  destruct (nullish rd).
  - repeat split.
  - unfold onResponse. rewrite Hv. repeat split.
Qed.

Lemma invalid_structure_surfaces_error_witness :
  error (fetchChartData "AAPL" (inr Samples.errorBody) initial)
    = Some "Invalid chart data structure" ∧
  data (fetchChartData "AAPL" (inr Samples.errorBody) initial) = [] ∧
  loading (fetchChartData "AAPL" (inr Samples.errorBody) initial) = false.
Proof.
  refine (invalid_structure_surfaces_error "AAPL" Samples.errorBody initial _ _).
  - discriminate.
  - reflexivity.
Defined.

End HookFacts.

(* ===================================================================== *)
(** ** Properties of the TopStocksGrid cache *)
(* ===================================================================== *)

Section GridFacts.

Import TopStocksGrid.

Lemma handleIndexChange_hit seen indexName now st cachedData :
  seen !! indexName = Some cachedData →
  isCacheValid now cachedData = true →
  handleIndexChange seen indexName now st =
    (mkState (data cachedData) false None indexName (Some (timestamp cachedData)) (cache st),
     None).
Proof.
  intros Hl Hv. unfold handleIndexChange. rewrite Hl, Hv. reflexivity.
Qed.

Lemma handleIndexChange_miss seen indexName now st :
  servedFromCache seen indexName now = false →
  handleIndexChange seen indexName now st =
    (mkState (topStocks st) true None indexName (lastUpdated st)
             (<[indexName := mkCacheData (JArr []) now true]> (cache st)),
     Some (requestFor indexName)).
Proof.
  unfold servedFromCache, handleIndexChange. intros Hs.
  destruct (seen !! indexName) as [cd|]; [rewrite Hs|]; reflexivity.
Qed.

Lemma handleIndexChange_request seen indexName now st :
  snd (handleIndexChange seen indexName now st) =
    if servedFromCache seen indexName now then None else Some (requestFor indexName).
Proof.
  destruct (servedFromCache seen indexName now) eqn:Hs.
  - unfold servedFromCache in Hs.
    destruct (seen !! indexName) as [cd|] eqn:Hl; [|discriminate].
    rewrite (handleIndexChange_hit _ _ _ _ _ Hl Hs). reflexivity.
  - rewrite (handleIndexChange_miss _ _ _ _ Hs). reflexivity.
Qed.

(** C3 (as the code has it).  A click on an index issues no service call
    if and only if the cache seen by the handler has an entry for the index
    whose age is strictly below [CACHE_DURATION]; the [loading] flag of the
    entry is not consulted.  Otherwise exactly the call for that index is
    issued. *)
Theorem handleIndexChange_fetches_iff_stale
    (seen : gmap string CacheData) (indexName : string) (now : Z) (st : state) :
  (snd (handleIndexChange seen indexName now st) = None ↔
   ∃ cachedData, seen !! indexName = Some cachedData ∧
                 now - timestamp cachedData < CACHE_DURATION) ∧
  (snd (handleIndexChange seen indexName now st) = None ∨
   snd (handleIndexChange seen indexName now st) = Some (requestFor indexName)).
Proof.
  rewrite handleIndexChange_request. unfold servedFromCache, isCacheValid. split.
  - destruct (seen !! indexName) as [cd|].
    + destruct (Z.ltb_spec (now - timestamp cd) CACHE_DURATION); split.
      * intros _. eauto.
      * reflexivity.
      * discriminate.
      * intros (cd' & Heq & Hlt). inversion Heq; subst. lia.
    + split; [discriminate|]. intros (cd' & Heq & _). discriminate.
  - destruct (match seen !! indexName with Some cd => _ | None => _ end); auto.
Qed.

(** C3, as stated, fails: right after the mount, while the first fetch for
    "all" is in flight, the entry of "all" is the loading placeholder (not
    Ready), and a click on "all" one second later issues no call. *)
Lemma loading_placeholder_suppresses_fetch :
  let w := run mounted [(1000, IndexChange "all")] in
  inflight w = ["all"] ∧
  cache (comp w) !! "all" = Some (mkCacheData (JArr []) 1000 true) ∧
  snd (handleIndexChange (cache (comp w)) "all" 2000 (comp w)) = None.
Proof.
  cbn -[handleIndexChange]. unfold mounted, initial.
  rewrite (handleIndexChange_miss ∅ "all" 1000) by reflexivity.
  cbn -[handleIndexChange]. split; [reflexivity|].
  split; [apply lookup_insert_eq|].
  rewrite handleIndexChange_request. unfold servedFromCache.
  rewrite lookup_insert_eq. reflexivity.
Qed.

(** A failed call touches nothing but [error] and [loading]. *)
Lemma fetchStocks_resume_failed indexName now net st :
  failed net = true →
  ∃ msg, fetchStocks_resume indexName now net st =
    mkState (topStocks st) false (Some msg) (selectedIndex st) (lastUpdated st) (cache st).
Proof.
  unfold failed, fetchStocks_resume, fetchStocks_catch. intros Hf.
  destruct net as [err|response].
  - destruct (includes "timeout" _); eexists; reflexivity.
  - destruct (nullish response).
    + destruct (includes "timeout" _); eexists; reflexivity.
    + simpl in Hf. destruct (truthy (get response "success")); [discriminate|].
      eexists; reflexivity.
Qed.

Lemma outstanding_app k w l st :
  outstanding k (mkWorld st (inflight w ++ l))
    = (outstanding k w + length (List.filter (String.eqb k) l))%nat.
Proof.
  unfold outstanding. simpl. rewrite List.filter_app, length_app. reflexivity.
Qed.

Lemma outstanding_removeFirst k w st :
  outstanding k (mkWorld st (removeFirst k (inflight w))) = pred (outstanding k w).
Proof.
  unfold outstanding. cbn [inflight]. induction (inflight w) as [|x l IH]; [reflexivity|].
  simpl. destruct (String.eqb k x) eqn:Hx; simpl; [reflexivity|].
  rewrite Hx. exact IH.
Qed.

(** An answer with truthy [success] and a listing: the whole state after
    the rest of [fetchStocks]. *)
Lemma fetchStocks_resume_listing indexName now response st :
  truthy (get response "success") = true →
  nullish (get response "data") = false →
  fetchStocks_resume indexName now (inr response) st
    = mkState (get response "data") false (error st) (selectedIndex st) (Some now)
              (<[indexName := mkCacheData (get response "data") now false]> (cache st)).
Proof.
  intros Hs Hd. unfold fetchStocks_resume.
  assert (Hn : nullish response = false) by (destruct response; try reflexivity; discriminate).
  rewrite Hn, Hs, Hd. reflexivity.
Qed.

(** C2 (as the code has it).  Index changes are single-flight, manual
    refresh is not.  When a click on an index has started a fetch, a second
    click on the same index less than [CACHE_DURATION] later starts no
    service call: the calls outstanding stay what they were and the render
    stays in its loading branch.  When the one call is answered with a
    listing, that listing reaches the component: it is on display, it is
    the cache entry of the index, the loading branch is left and no call of
    the two clicks is outstanding any more.  A manual refresh issued
    instead of the second click does start a call: two calls for the index
    are then outstanding at once. *)
Theorem index_change_is_single_flight_refresh_is_not
    (w : world) (indexName : string) (t0 t1 t2 : Z) (response : jsval) :
  snd (handleIndexChange (cache (comp w)) indexName t0 (comp w)) ≠ None →
  t1 - t0 < CACHE_DURATION →
  truthy (get response "success") = true →
  nullish (get response "data") = false →
  let w1 := step w (t0, IndexChange indexName) in
  let w2 := step w1 (t1, IndexChange indexName) in
  let w3 := step w2 (t2, Settle indexName (inr response)) in
  let refreshed := step w1 (t1, ManualRefresh) in
  outstanding indexName w1 = S (outstanding indexName w) ∧
  (inflight w2 = inflight w1 ∧ isLoading (comp w2) = true) ∧
  (outstanding indexName w3 = outstanding indexName w ∧
   topStocks (comp w3) = get response "data" ∧
   cache (comp w3) !! indexName = Some (mkCacheData (get response "data") t2 false) ∧
   isLoading (comp w3) = false ∧ error (comp w3) = None) ∧
  outstanding indexName refreshed = S (S (outstanding indexName w)).
Proof.
  intros Hreq Ht Hs Hd.
  assert (Hmiss : servedFromCache (cache (comp w)) indexName t0 = false).
  { rewrite handleIndexChange_request in Hreq.
    destruct (servedFromCache (cache (comp w)) indexName t0); [contradiction|reflexivity]. }
  assert (Hv : isCacheValid t1 (mkCacheData (JArr []) t0 true) = true).
  { unfold isCacheValid. simpl. apply Z.ltb_lt. exact Ht. }
  assert (Hcount : ∀ st, outstanding indexName (mkWorld st (inflight w ++ [indexName]))
                         = S (outstanding indexName w)).
  { intros st. rewrite outstanding_app. simpl. rewrite String.eqb_refl. simpl. lia. }
  set (st1 := mkState (topStocks (comp w)) true None indexName (lastUpdated (comp w))
                      (<[indexName := mkCacheData (JArr []) t0 true]> (cache (comp w)))).
  assert (H1 : step w (t0, IndexChange indexName) = mkWorld st1 (inflight w ++ [indexName])).
  { unfold step. rewrite (handleIndexChange_miss _ _ _ _ Hmiss). reflexivity. }
  assert (Hl1 : cache st1 !! indexName = Some (mkCacheData (JArr []) t0 true))
    by apply lookup_insert_eq.
  set (st2 := mkState (JArr []) false None indexName (Some t0) (cache st1)).
  assert (H2 : step (mkWorld st1 (inflight w ++ [indexName])) (t1, IndexChange indexName)
               = mkWorld st2 (inflight w ++ [indexName])).
  { unfold step. cbn [comp inflight].
    rewrite (handleIndexChange_hit _ _ _ _ _ Hl1 Hv), app_nil_r. reflexivity. }
  assert (H3 : step (mkWorld st2 (inflight w ++ [indexName]))
                    (t2, Settle indexName (inr response))
               = mkWorld (fetchStocks_resume indexName t2 (inr response) st2)
                         (removeFirst indexName (inflight w ++ [indexName]))).
  { unfold step. rewrite Hcount. reflexivity. }
  cbv zeta. rewrite H1, H2, H3.
  split; [apply Hcount|]. split.
  { split; [reflexivity|]. unfold isLoading. cbn [comp busy cache selectedIndex st2].
    rewrite Hl1. reflexivity. }
  split.
  - rewrite (fetchStocks_resume_listing _ _ _ _ Hs Hd).
    split.
    { change (removeFirst indexName (inflight w ++ [indexName]))
        with (removeFirst indexName (inflight (mkWorld st2 (inflight w ++ [indexName])))).
      rewrite outstanding_removeFirst, (Hcount st2). reflexivity. }
    cbn [comp topStocks cache error st2 selectedIndex].
    split; [reflexivity|]. split; [apply lookup_insert_eq|].
    split; [|reflexivity].
    unfold isLoading. cbn [busy cache selectedIndex]. rewrite lookup_insert_eq. reflexivity.
  - unfold step, handleManualRefresh, fetchStocks_begin. cbn [comp selectedIndex st1 inflight].
    unfold outstanding. cbn [inflight]. rewrite !List.filter_app, !length_app.
    simpl. rewrite String.eqb_refl. simpl. lia.
Qed.


Lemma index_change_is_single_flight_refresh_is_not_witness :
  let w1 := step mounted (0, IndexChange "all") in
  let w2 := step w1 (1000, IndexChange "all") in
  let w3 := step w2 (2000, Settle "all" (inr Samples.stocksBody)) in
  let refreshed := step w1 (1000, ManualRefresh) in
  outstanding "all" w1 = 1%nat ∧
  (inflight w2 = inflight w1 ∧ isLoading (comp w2) = true) ∧
  (outstanding "all" w3 = 0%nat ∧
   topStocks (comp w3) = Samples.stocks ∧
   cache (comp w3) !! "all" = Some (mkCacheData Samples.stocks 2000 false) ∧
   isLoading (comp w3) = false ∧ error (comp w3) = None) ∧
  outstanding "all" refreshed = 2%nat.
Proof.
  refine (index_change_is_single_flight_refresh_is_not mounted "all" 0 1000 2000
            Samples.stocksBody _ _ eq_refl eq_refl).
  - discriminate.
  - reflexivity.
Defined.

(** C2, as stated, fails.  After the mount and the first listing, a manual
    refresh starts a call for "all"; a click on "all" while it is in flight
    is served from the cache and clears the loading cell, which brings the
    refresh button back; a second refresh then starts a second call for
    "all" while the first is still outstanding. *)
Lemma manual_refresh_stacks_second_fetch :
  let w2 := run mounted [ (0, IndexChange "all");
                          (100, Settle "all" (inr Samples.stocksBody)) ] in
  let w3 := step w2 (200, ManualRefresh) in
  let w4 := step w3 (300, IndexChange "all") in
  let w5 := step w4 (400, ManualRefresh) in
  (inflight w2 = [] ∧ isLoading (comp w2) = false) ∧
  outstanding "all" w3 = 1%nat ∧
  (inflight w4 = inflight w3 ∧ isLoading (comp w4) = false) ∧
  outstanding "all" w5 = 2%nat.
Proof.
  vm_compute. repeat split.
Qed.

(** The fetches that end with [error] set, when it was clear before: the
    ones that [failed] tells (rejected, no body, falsy [success]), and the
    answer with truthy [success] and no [data], whose error is raised by
    the read of [stockData.length] after the cells were written. *)
Lemma fetchStocks_resume_error_iff indexName now net st :
  error st = None →
  (is_Some (error (fetchStocks_resume indexName now net st)) ↔
   failed net = true ∨
   ∃ response, net = inr response ∧ truthy (get response "success") = true ∧
               nullish (get response "data") = true).
Proof.
  intros He. split.
  - destruct (failed net) eqn:Hf; [auto|]. intros Herr. right.
    destruct net as [err|response]; [discriminate|]. simpl in Hf.
    apply orb_false_elim in Hf as [Hn Hs]. apply negb_false_iff in Hs.
    exists response. split; [reflexivity|]. split; [exact Hs|].
    destruct (nullish (get response "data")) eqn:Hd; [reflexivity|].
    rewrite (fetchStocks_resume_listing _ _ _ _ Hs Hd) in Herr. simpl in Herr.
    rewrite He in Herr. destruct Herr; discriminate.
  - intros [Hf|(response & -> & Hs & Hd)].
    + destruct (fetchStocks_resume_failed indexName now net st Hf) as [msg ->]. simpl. eauto.
    + unfold fetchStocks_resume, fetchStocks_catch.
      assert (Hn : nullish response = false)
        by (destruct response; try reflexivity; discriminate).
      rewrite Hn, Hs, Hd. destruct (includes "timeout" _); simpl; eauto.
Qed.

(** C4 (as the code has it).  A fetch that is rejected, or answered with
    no body or with a falsy [success], is recorded in the [error] cell of
    the component only; a cache entry has no error state and
    [fetchStocks] leaves the cache as it finds it.  After a manual refresh
    the whole cache, hence payload and timestamp of the entry, is what it
    was before the refresh.  After a click that found the entry missing or
    expired, the entry had been overwritten with the loading placeholder
    before the call and the failure leaves the placeholder there.  In both
    cases the listing on display is the one shown before.  (The answer with
    truthy [success] and no [data] is not among these failures, see
    [fetchStocks_resume_error_iff].) *)
Theorem failed_fetch_leaves_cache_as_found
    (st : state) (indexName : string) (t0 t1 : Z) (net : thrown + jsval) :
  failed net = true →
  snd (handleIndexChange (cache st) indexName t0 st) ≠ None →
  (let st' := fetchStocks_resume indexName t1 net (fst (handleManualRefresh indexName st)) in
   cache st' = cache st ∧ topStocks st' = topStocks st ∧
   lastUpdated st' = lastUpdated st ∧ is_Some (error st') ∧ busy st' = false) ∧
  (let st' := fetchStocks_resume indexName t1 net
                (fst (handleIndexChange (cache st) indexName t0 st)) in
   cache st' !! indexName = Some (mkCacheData (JArr []) t0 true) ∧
   topStocks st' = topStocks st ∧ is_Some (error st') ∧ busy st' = false).
Proof.
  intros Hf Hreq. split.
  - destruct (fetchStocks_resume_failed indexName t1 net
                (fst (handleManualRefresh indexName st)) Hf) as [msg ->].
    simpl. repeat split. eauto.
  - assert (Hmiss : servedFromCache (cache st) indexName t0 = false).
    { rewrite handleIndexChange_request in Hreq.
      destruct (servedFromCache (cache st) indexName t0); [contradiction|reflexivity]. }
    rewrite (handleIndexChange_miss _ _ _ _ Hmiss).
    destruct (fetchStocks_resume_failed indexName t1 net
                (fst (mkState (topStocks st) true None indexName (lastUpdated st)
                        (<[indexName := mkCacheData (JArr []) t0 true]> (cache st)),
                      Some (requestFor indexName))) Hf) as [msg ->].
    simpl. repeat split; [apply lookup_insert_eq | eauto].
Qed.

Lemma failed_fetch_leaves_cache_as_found_witness :
  let st := comp (run mounted [ (0, IndexChange "all");
                                (100, Settle "all" (inr Samples.stocksBody)) ]) in
  (let st' := fetchStocks_resume "all" 400500 (inl Samples.networkError)
                (fst (handleManualRefresh "all" st)) in
   cache st' = cache st ∧ topStocks st' = topStocks st ∧
   lastUpdated st' = lastUpdated st ∧ is_Some (error st') ∧ busy st' = false) ∧
  (let st' := fetchStocks_resume "all" 400500 (inl Samples.networkError)
                (fst (handleIndexChange (cache st) "all" 400000 st)) in
   cache st' !! "all" = Some (mkCacheData (JArr []) 400000 true) ∧
   topStocks st' = topStocks st ∧ is_Some (error st') ∧ busy st' = false).
Proof.
  intros st.
  refine (failed_fetch_leaves_cache_as_found st "all" 400000 400500
            (inl Samples.networkError) eq_refl _).
  vm_compute. discriminate.
Defined.

(** C4, as stated, fails.  The listing of "all" is cached at time 100; a
    click on "all" after it has expired starts a fetch, which fails.  The
    entry of "all" is then the loading placeholder: the payload cached at
    time 100 and its timestamp are gone from the cache, and no entry is in
    an error state. *)
Lemma failed_refetch_loses_cached_payload :
  let w2 := run mounted [ (0, IndexChange "all");
                          (100, Settle "all" (inr Samples.stocksBody)) ] in
  let w4 := run w2 [ (400000, IndexChange "all");
                     (400500, Settle "all" (inl Samples.networkError)) ] in
  cache (comp w2) !! "all" = Some (mkCacheData Samples.stocks 100 false) ∧
  inflight w4 = [] ∧
  error (comp w4) = Some "Network Error" ∧
  cache (comp w4) !! "all" = Some (mkCacheData (JArr []) 400000 true) ∧
  cache (comp w4) !! "all" ≠ Some (mkCacheData Samples.stocks 100 false).
Proof.
  vm_compute. repeat split. discriminate.
Qed.

End GridFacts.

(* ===================================================================== *)
(** ** Properties of retryApiRequest and of the response interceptor *)
(* ===================================================================== *)

Section RetryFacts.

Import Api.

Context {T E W : Type}.
Variable requestFn : W → (E + T) * W.

(** The loop always comes to an end: with the iterations that remain as
    fuel the model answers. *)
Lemma retryLoop_total fuel maxRetries delay i lastError w fx :
  maxRetries - i ≤ Z.of_nat fuel →
  ∃ r, retryLoop requestFn fuel maxRetries delay i lastError w fx = Some r.
Proof.
  revert i lastError w fx.
  induction fuel as [|fuel IH]; intros i lastError w fx Hf; simpl.
  - destruct (Z.ltb_spec i maxRetries); [lia|eauto].
  - destruct (Z.ltb_spec i maxRetries); [|eauto].
    destruct (requestFn w) as [[error|value] w1]; [|eauto].
    apply IH. lia.
Qed.

Lemma retryApiRequest_total maxRetries delay w :
  ∃ r, retryApiRequest requestFn maxRetries delay w = Some r.
Proof. apply retryLoop_total. lia. Qed.

(** With a request function that rejects on every call, each iteration
    that remains is one call. *)
Lemma retryLoop_rejecting fuel maxRetries delay i lastError w fx :
  (∀ w, ∃ e w', requestFn w = (inl e, w')) →
  Z.of_nat fuel = maxRetries - i →
  ∃ last w' fx',
    retryLoop requestFn fuel maxRetries delay i lastError w fx
      = Some (Rejected last, w', fx') ∧
    invocations fx' = (invocations fx + fuel)%nat ∧
    (fuel = O → last = lastError) ∧ (fuel ≠ O → last ≠ None).
Proof.
  intros Hrej. revert i lastError w fx.
  induction fuel as [|fuel IH]; intros i lastError w fx Hf; simpl.
  - destruct (Z.ltb_spec i maxRetries); [lia|].
    eexists _, _, _. split; [reflexivity|]. repeat split; [lia | congruence].
  - destruct (Z.ltb_spec i maxRetries); [|lia].
    destruct (Hrej w) as (e & w1 & ->).
    edestruct (IH (i + 1) (Some e) w1) as (last & w' & fx' & -> & Hn & H0 & Hne); [lia|].
    eexists _, _, _. split; [reflexivity|]. simpl in Hn.
    repeat split; [ destruct (i <? maxRetries - 1); simpl in Hn; lia | discriminate | ].
    intros _. destruct fuel; [rewrite H0 by reflexivity; discriminate | auto].
Qed.

(** [maxRetries] counts attempts: a request function that always rejects
    is called [maxRetries] times, not [maxRetries + 1]. *)
Lemma retryApiRequest_rejecting_count maxRetries delay w :
  (∀ w, ∃ e w', requestFn w = (inl e, w')) →
  0 ≤ maxRetries →
  ∃ last w' fx',
    retryApiRequest requestFn maxRetries delay w = Some (Rejected last, w', fx') ∧
    invocations fx' = Z.to_nat maxRetries.
Proof.
  intros Hrej Hm.
  destruct (retryLoop_rejecting (Z.to_nat maxRetries) maxRetries delay 0 None w
              (mkEffects 0 []) Hrej) as (last & w' & fx' & Hr & Hn & _); [lia|].
  exists last, w', fx'. split; [exact Hr|]. simpl in Hn. lia.
Qed.

(** Two rejections followed by a success, [maxRetries = 3]: the third call
    resolves the promise and no further call is made. *)
Example retryApiRequest_third_attempt_succeeds :
  Api.retryApiRequest
    (λ calls : nat, (if (calls <? 2)%nat then inl "timeout" else inr calls, S calls))
    3 1000 0%nat
  = Some (Api.Resolved (E := string) 2%nat, 3%nat, Api.mkEffects 3 [1000; 2000]).
Proof. reflexivity. Qed.

(** C1 (as the code has it).  With [maxRetries = 3] a request function
    that rejects on every call is called exactly 3 times, the first attempt
    and two retries, with waits of [delay] and [2 * delay] between them and
    none after the last; the promise then rejects with the error of the
    third call. *)
Theorem retryApiRequest_three_attempts (delay : Z) (w : W) :
  (∀ w, ∃ e w', requestFn w = (inl e, w')) →
  ∃ e1 w1 e2 w2 e3 w3,
    requestFn w = (inl e1, w1) ∧
    requestFn w1 = (inl e2, w2) ∧
    requestFn w2 = (inl e3, w3) ∧
    retryApiRequest requestFn 3 delay w
      = Some (Rejected (Some e3), w3, mkEffects 3 [delay * 1; delay * 2]).
Proof.
  intros Hrej.
  destruct (Hrej w) as (e1 & w1 & H1).
  destruct (Hrej w1) as (e2 & w2 & H2).
  destruct (Hrej w2) as (e3 & w3 & H3).
  exists e1, w1, e2, w2, e3, w3. repeat split; try assumption.
  unfold retryApiRequest. simpl. rewrite H1, H2, H3. reflexivity.
Qed.

(** C10.  With [maxRetries = 0] the loop body never runs: the request
    function is not called, nothing is awaited, and the promise rejects
    with the unassigned [lastError], that is with [undefined]. *)
Theorem retryApiRequest_zero_retries (delay : Z) (w : W) :
  retryApiRequest requestFn 0 delay w = Some (Rejected None, w, mkEffects 0 []).
Proof. reflexivity. Qed.

End RetryFacts.

Lemma retryApiRequest_three_attempts_witness :
  ∃ e1 w1 e2 w2 e3 w3,
    Samples.alwaysTimesOut 0%nat = (inl e1, w1) ∧
    Samples.alwaysTimesOut w1 = (inl e2, w2) ∧
    Samples.alwaysTimesOut w2 = (inl e3, w3) ∧
    Api.retryApiRequest Samples.alwaysTimesOut 3 1000 0%nat
      = Some (Api.Rejected (Some e3), w3, Api.mkEffects 3 [1000 * 1; 1000 * 2]).
Proof.
  refine (retryApiRequest_three_attempts Samples.alwaysTimesOut 1000 0%nat _).
  intros calls. exists "timeout of 30000ms exceeded", (S calls). reflexivity.
Defined.

(** C1, as stated, fails: the request function that always times out is
    called 3 times with [maxRetries = 3], not 4. *)
Lemma retryApiRequest_not_four_attempts :
  Api.retryApiRequest Samples.alwaysTimesOut 3 1000 0%nat
    = Some (Api.Rejected (Some "timeout of 30000ms exceeded"), 3%nat,
            Api.mkEffects 3 [1000; 2000]) ∧
  (∀ r w fx, Api.retryApiRequest Samples.alwaysTimesOut 3 1000 0%nat = Some (r, w, fx) →
             Api.invocations fx ≠ 4%nat).
Proof.
  split; [reflexivity|]. intros r w fx H. vm_compute in H. inversion H. discriminate.
Qed.

Section InterceptorFacts.

Import Api.

Lemma timeoutError_isTimeout cfg : isTimeoutError (Samples.timeoutError cfg) = true.
Proof. reflexivity. Qed.

(** One turn of the interceptor on a timeout, and on an answer. *)
Lemma request_timeout_step fuel (net : adapter) cfg tr :
  net (length (sent tr)) cfg = inl (Samples.timeoutError cfg) →
  request (S fuel) net cfg tr
    = request fuel net cfg (mkTrace (sent tr ++ [cfg]) (sleeps tr ++ [3000])).
Proof. intros H. simpl. rewrite H. reflexivity. Qed.

Lemma request_response_step fuel (net : adapter) cfg tr response :
  net (length (sent tr)) cfg = inr response →
  request (S fuel) net cfg tr
    = (Some (inr response), mkTrace (sent tr ++ [cfg]) (sleeps tr)).
Proof. intros H. simpl. rewrite H. reflexivity. Qed.

(** From a trace with [j] requests sent, on a network whose first [j + k]
    requests time out, the interceptor re-issues the request [k] times. *)
Lemma request_retries_from (k j : nat) (response : AxiosResponse) (cfg : requestConfig)
    (tr : trace) :
  length (sent tr) = j →
  request (S k) (Samples.timesOutThen (j + k) response) cfg tr
    = (Some (inr response),
       mkTrace (sent tr ++ replicate (S k) cfg) (sleeps tr ++ replicate k 3000)).
Proof.
  revert j tr. induction k as [|k IH]; intros j tr Hj.
  - rewrite (request_response_step _ _ _ _ response).
    + simpl. rewrite app_nil_r. reflexivity.
    + rewrite Hj. unfold Samples.timesOutThen.
      destruct (Nat.ltb_spec j (j + 0)); [lia|reflexivity].
  - rewrite request_timeout_step.
    + replace (j + S k)%nat with (S j + k)%nat by lia.
      rewrite IH by (cbn [sent]; rewrite length_app; simpl; lia).
      cbn [sent sleeps]. rewrite <- !app_assoc. reflexivity.
    + rewrite Hj. unfold Samples.timesOutThen.
      destruct (Nat.ltb_spec j (j + S k)); [reflexivity|lia].
Qed.

(** C7 (what the code does).  Every timeout makes the interceptor wait
    3000 ms and hand the unchanged config back to [api.request], whose
    outcome goes through the same interceptor again: on a network whose
    first [k] requests time out the call settles with the answer to request
    [k + 1], after [k] retries of the interceptor, for every [k]. *)
Theorem interceptor_retries_every_timeout (k : nat) (response : AxiosResponse)
    (cfg : requestConfig) :
  request (S k) (Samples.timesOutThen k response) cfg noTrace
    = (Some (inr response), mkTrace (replicate (S k) cfg) (replicate k 3000)) ∧
  interceptorRetries (snd (request (S k) (Samples.timesOutThen k response) cfg noTrace)) = k.
Proof.
  pose proof (request_retries_from k 0 response cfg noTrace eq_refl) as H.
  change (0 + k)%nat with k in H. rewrite H. split; [reflexivity|].
  unfold interceptorRetries. cbn [snd sleeps noTrace app]. apply length_replicate.
Qed.

(** On a network that never answers the promise never settles: whatever
    number of requests is observed, all of them were sent and the last one
    is being retried. *)
Lemma interceptor_never_gives_up (fuel : nat) (cfg : requestConfig) (tr : trace) :
  request fuel Samples.neverAnswers cfg tr
    = (None, mkTrace (sent tr ++ replicate fuel cfg) (sleeps tr ++ replicate fuel 3000)).
Proof.
  revert tr. induction fuel as [|fuel IH]; intros tr.
  - simpl. rewrite !app_nil_r. destruct tr; reflexivity.
  - rewrite request_timeout_step by reflexivity.
    rewrite IH. cbn [sent sleeps]. rewrite <- !app_assoc. reflexivity.
Qed.

(** The request whose first two attempts time out is retried twice. *)
Example interceptor_retries_twice :
  request 3 (Samples.timesOutThen 2 Samples.okResponse) Samples.chartRequest noTrace
    = (Some (inr Samples.okResponse),
       mkTrace [Samples.chartRequest; Samples.chartRequest; Samples.chartRequest]
               [3000; 3000]).
Proof. reflexivity. Qed.

End InterceptorFacts.

(* ===================================================================== *)
(** ** Further properties: retryApiRequest for every request function *)
(* ===================================================================== *)

Section RetryMore.

Import Api SpecMore.

Context {T E W : Type}.
Variable requestFn : W → (E + T) * W.

(** What the loop does from iteration [i] on, whatever the request
    function answers: [m] calls, [m - 1] waits of growing length. *)
Lemma retryLoop_shape fuel maxRetries delay i lastError w fx :
  fuel = Z.to_nat (maxRetries - i) →
  ∃ r w' m,
    retryLoop requestFn fuel maxRetries delay i lastError w fx
      = Some (r, w', mkEffects (invocations fx + m)
                               (waits fx ++ backoff delay (i + 1) (m - 1))) ∧
    (m ≤ fuel)%nat ∧ (fuel ≠ O → m ≠ O) ∧
    (∀ e, r = Rejected e →
          m = fuel ∧ (fuel = O → e = lastError) ∧ (fuel ≠ O → e ≠ None)).
Proof.
  revert i lastError w fx.
  induction fuel as [|fuel IH]; intros i lastError w fx Hf.
  - exists (Rejected lastError), w, O. simpl.
    destruct (Z.ltb_spec i maxRetries); [lia|].
    rewrite Nat.add_0_r, app_nil_r. destruct fx; simpl.
    repeat split; try congruence; try lia.
  - simpl. destruct (Z.ltb_spec i maxRetries); [|lia].
    destruct (requestFn w) as [[error|value] w1].
    + destruct (Z.ltb_spec i (maxRetries - 1)) as [Hlt|Hge].
      * destruct (IH (i + 1) (Some error) w1
                    (mkEffects (S (invocations fx)) (waits fx ++ [delay * (i + 1)])))
          as (r & w' & m & Hr & Hle & Hpos & Hrej); [lia|].
        assert (Hm : m ≠ O) by (apply Hpos; lia).
        destruct m as [|m]; [congruence|].
        exists r, w', (S (S m)). rewrite Hr. cbn [invocations waits].
        split; [|split; [lia|split; [congruence|]]].
        -- replace (S m - 1)%nat with m by lia.
           replace (S (S m) - 1)%nat with (S m) by lia.
           cbn [backoff]. rewrite <- app_assoc.
           replace (S (invocations fx) + S m)%nat with (invocations fx + S (S m))%nat by lia.
           reflexivity.
        -- intros e He. destruct (Hrej e He) as (Hmf & H0 & Hne).
           split; [lia|]. split; [discriminate|]. intros _. apply Hne. lia.
      * destruct (IH (i + 1) (Some error) w1 (mkEffects (S (invocations fx)) (waits fx)))
          as (r & w' & m & Hr & Hle & Hpos & Hrej); [lia|].
        assert (m = O) by lia. subst m.
        exists r, w', 1%nat. rewrite Hr. cbn [invocations waits].
        split; [|split; [lia|split; [congruence|]]].
        -- simpl. replace (S (invocations fx + 0))%nat with (invocations fx + 1)%nat by lia.
           reflexivity.
        -- intros e He. destruct (Hrej e He) as (Hmf & H0 & Hne).
           split; [lia|]. split; [discriminate|]. intros _.
           rewrite H0 by lia. discriminate.
    + exists (Resolved value), w1, 1%nat. simpl. rewrite app_nil_r.
      split; [repeat f_equal; lia|]. split; [lia|]. split; [lia|]. discriminate.
Qed.

(** Totality and the bound on the calls, in the form other proofs use. *)
Lemma retryApiRequest_bounded_core (maxRetries delay : Z) (w : W) :
  ∃ r w' fx,
    retryApiRequest requestFn maxRetries delay w = Some (r, w', fx) ∧
    (invocations fx ≤ Z.to_nat maxRetries)%nat.
Proof.
  destruct (retryLoop_shape (Z.to_nat maxRetries) maxRetries delay 0 None w
              (mkEffects 0 [])) as (r & w' & m & Hr & Hle & _ & _).
  { f_equal. lia. }
  eexists r, w', _. split; [exact Hr|exact Hle].
Qed.

(** X1.  For an integer [maxRetries] and an integer [delay] in the range
    where the loop counter and the products [delay * (i + 1)] are exact
    ([maxRetries] and [|delay| * maxRetries] at most
    [Number.MAX_SAFE_INTEGER]), [retryApiRequest] always settles, calls the
    request function at most [maxRetries] times (never for
    [maxRetries <= 0]), and between two consecutive calls waits [delay],
    [2 * delay], ...: one wait less than calls, none after the last call. *)
Theorem retryApiRequest_bounded_linear_backoff (maxRetries delay : Z) (w : W) :
  maxRetries ≤ MAX_SAFE_INTEGER →
  Z.abs delay * maxRetries ≤ MAX_SAFE_INTEGER →
  ∃ r w' fx,
    retryApiRequest requestFn maxRetries delay w = Some (r, w', fx) ∧
    (invocations fx ≤ Z.to_nat maxRetries)%nat ∧
    waits fx = backoff delay 1 (invocations fx - 1).
Proof.
  intros _ _.
  destruct (retryLoop_shape (Z.to_nat maxRetries) maxRetries delay 0 None w
              (mkEffects 0 [])) as (r & w' & m & Hr & Hle & _ & _).
  { f_equal. lia. }
  exists r, w', (mkEffects m (backoff delay 1 (m - 1))).
  split; [exact Hr|]. split; [exact Hle|reflexivity].
Qed.

Lemma retryLoop_rejected_last fuel maxRetries delay i lastError w fx e w' fx' :
  fuel = Z.to_nat (maxRetries - i) →
  retryLoop requestFn fuel maxRetries delay i lastError w fx = Some (Rejected e, w', fx') →
  match fuel with
  | O => e = lastError ∧ w' = w
  | S f => ∃ wk err, afterRejections requestFn f w = Some wk ∧
                     requestFn wk = (inl err, w') ∧ e = Some err
  end.
Proof.
  revert i lastError w fx.
  induction fuel as [|fuel IH]; intros i lastError w fx Hf; simpl.
  - destruct (Z.ltb_spec i maxRetries); [lia|]. intros Hr. inversion Hr. auto.
  - destruct (Z.ltb_spec i maxRetries); [|lia].
    destruct (requestFn w) as [[error|value] w1] eqn:Hw; [|discriminate].
    intros Hr. apply IH in Hr; [|lia].
    destruct fuel as [|fuel'].
    + destruct Hr as [-> ->]. exists w, error. simpl. auto.
    + destruct Hr as (wk & err & Hk & Hlast & ->).
      exists wk, err. split; [|auto]. cbn [afterRejections]. rewrite Hw. exact Hk.
Qed.

(** X2.  For an integer [maxRetries], the promise rejects only when every
    one of the [maxRetries] attempts was made and rejected.  For
    [maxRetries >= 1] it then rejects with whatever the last attempt
    rejected with; for [maxRetries <= 0] no attempt is made and it rejects
    with the never-assigned [lastError]. *)
Theorem retryApiRequest_rejects_after_all_attempts
    (maxRetries delay : Z) (w w' : W) (e : option E) (fx : effects) :
  retryApiRequest requestFn maxRetries delay w = Some (Rejected e, w', fx) →
  invocations fx = Z.to_nat maxRetries ∧
  (maxRetries ≤ 0 → e = None ∧ w' = w) ∧
  (0 < maxRetries →
   ∃ wk err, afterRejections requestFn (Z.to_nat maxRetries - 1) w = Some wk ∧
             requestFn wk = (inl err, w') ∧ e = Some err).
Proof.
  intros H. unfold retryApiRequest in H.
  destruct (retryLoop_shape (Z.to_nat maxRetries) maxRetries delay 0 None w
              (mkEffects 0 [])) as (r & w2 & m & Hr & Hle & _ & Hrej).
  { f_equal. lia. }
  rewrite H in Hr. inversion Hr; subst r w2.
  destruct (Hrej e eq_refl) as (Hm & _ & _).
  assert (Hfuel : Z.to_nat maxRetries = Z.to_nat (maxRetries - 0)) by (f_equal; lia).
  pose proof (retryLoop_rejected_last (Z.to_nat maxRetries) maxRetries delay 0 None w
                (mkEffects 0 []) e w' fx Hfuel H) as Hlast.
  split; [simpl; lia|]. split.
  - intros Hz. destruct (Z.to_nat maxRetries) eqn:Hn; [exact Hlast|lia].
  - intros Hpos. destruct (Z.to_nat maxRetries) as [|f] eqn:Hn; [lia|].
    replace (S f - 1)%nat with f by lia. exact Hlast.
Qed.

(** The loop from iteration [i] on when the first [k] calls reject and the
    next one resolves. *)
Lemma retryLoop_resolves_after k fuel maxRetries delay i lastError w fx wk v w' :
  afterRejections requestFn k w = Some wk →
  requestFn wk = (inr v, w') →
  i + Z.of_nat k < maxRetries →
  (k < fuel)%nat →
  retryLoop requestFn fuel maxRetries delay i lastError w fx
    = Some (Resolved v, w',
            mkEffects (invocations fx + S k) (waits fx ++ backoff delay (i + 1) k)).
Proof.
  revert fuel i lastError w fx.
  induction k as [|k IH]; intros fuel i lastError w fx Hk Hv Hi Hfuel;
    (destruct fuel as [|fuel]; [lia|]); simpl in *.
  - inversion Hk; subst wk. destruct (Z.ltb_spec i maxRetries); [|lia].
    rewrite Hv, app_nil_r.
    replace (invocations fx + 1)%nat with (S (invocations fx)) by lia. reflexivity.
  - destruct (Z.ltb_spec i maxRetries); [|lia].
    destruct (requestFn w) as [[error|value] w1]; [|discriminate].
    destruct (Z.ltb_spec i (maxRetries - 1)); [|lia].
    rewrite (IH fuel (i + 1) (Some error) w1 _ Hk Hv) by lia.
    cbn [invocations waits]. rewrite <- app_assoc. cbn [app].
    replace (S (invocations fx) + S k)%nat with (invocations fx + S (S k))%nat by lia.
    reflexivity.
Qed.

(** X3.  When the first [k] calls of the request function reject and the
    next one resolves, with [k < maxRetries], the promise resolves with
    that value after exactly [k + 1] calls and the waits [delay], ...,
    [k * delay]; the request function is not called again. *)
Theorem retryApiRequest_resolves_on_first_success
    (maxRetries delay : Z) (k : nat) (w wk w' : W) (v : T) :
  afterRejections requestFn k w = Some wk →
  requestFn wk = (inr v, w') →
  Z.of_nat k < maxRetries →
  retryApiRequest requestFn maxRetries delay w
    = Some (Resolved v, w', mkEffects (S k) (backoff delay 1 k)).
Proof.
  intros Hk Hv Hlt. unfold retryApiRequest.
  rewrite (retryLoop_resolves_after k _ _ _ _ _ _ _ wk v w' Hk Hv) by lia.
  reflexivity.
Qed.

End RetryMore.

Lemma retryApiRequest_bounded_linear_backoff_witness :
  ∃ r w' fx,
    Api.retryApiRequest Samples.alwaysTimesOut 3 1000 0%nat = Some (r, w', fx) ∧
    (Api.invocations fx ≤ Z.to_nat 3)%nat ∧
    Api.waits fx = SpecMore.backoff 1000 1 (Api.invocations fx - 1).
Proof.
  refine (retryApiRequest_bounded_linear_backoff Samples.alwaysTimesOut 3 1000 0%nat _ _).
  - discriminate.
  - discriminate.
Defined.

Lemma retryApiRequest_rejects_after_all_attempts_witness :
  Api.invocations (Api.mkEffects 3 [1000; 2000]) = Z.to_nat 3 ∧
  (3 ≤ 0 → Some "timeout of 30000ms exceeded" = None ∧ 3%nat = 0%nat) ∧
  (0 < 3 →
   ∃ wk err, SpecMore.afterRejections Samples.alwaysTimesOut (Z.to_nat 3 - 1) 0%nat = Some wk ∧
             Samples.alwaysTimesOut wk = (inl err, 3%nat) ∧
             Some "timeout of 30000ms exceeded" = Some err).
Proof.
  exact (retryApiRequest_rejects_after_all_attempts Samples.alwaysTimesOut 3 1000
           0%nat 3%nat (Some "timeout of 30000ms exceeded")
           (Api.mkEffects 3 [1000; 2000]) eq_refl).
Defined.

Lemma retryApiRequest_resolves_on_first_success_witness :
  Api.retryApiRequest
    (λ calls : nat, (if (calls <? 2)%nat then inl "timeout" else inr calls, S calls))
    3 1000 0%nat
  = Some (Api.Resolved (E := string) 2%nat, 3%nat,
          Api.mkEffects 3 (SpecMore.backoff 1000 1 2)).
Proof.
  exact (retryApiRequest_resolves_on_first_success
           (λ calls : nat, (if (calls <? 2)%nat then inl "timeout" else inr calls, S calls))
           3 1000 2 0%nat 2%nat 3%nat 2%nat eq_refl eq_refl eq_refl).
Defined.

(* ===================================================================== *)
(** ** Further properties: the response interceptor on every network *)
(* ===================================================================== *)

Section InterceptorMore.

Import Api.

Variable net : adapter.

(** What a call of [api.request] leaves behind, from any trace: the
    configs [new] it sent, the first being its own; [k] retries, each of a
    request that was sent and answered with a timeout carrying a config,
    each after a sleep of 3000 ms and each sending that config; and an
    outcome that is the answer of the network to the last request sent. *)
Lemma request_trace fuel cfg tr0 out tr :
  request fuel net cfg tr0 = (out, tr) →
  ∃ (new : list requestConfig) (k : nat),
    sent tr = (sent tr0 ++ new)%list ∧
    sleeps tr = (sleeps tr0 ++ replicate k 3000)%list ∧
    length new = (k + match out with Some _ => 1 | None => 0 end)%nat ∧
    (k ≤ fuel)%nat ∧
    (out = None → k = fuel) ∧
    (∀ c, new !! 0%nat = Some c → c = cfg) ∧
    (∀ j, (j < k)%nat →
       ∃ c e c', new !! j = Some c ∧
                 net (length (sent tr0) + j)%nat c = inl e ∧
                 isTimeoutError e = true ∧ config e = Some c' ∧
                 (∀ c'', new !! S j = Some c'' → c'' = c')) ∧
    (∀ answer, out = Some answer →
       ∃ c, new !! k = Some c ∧ net (length (sent tr0) + k)%nat c = answer) ∧
    (∀ e, out = Some (inl e) → isTimeoutError e = false ∨ config e = None).
Proof.
  revert cfg tr0. induction fuel as [|fuel IH]; intros cfg tr0 H.
  - simpl in H. inversion H; subst. exists [], O. simpl.
    rewrite !app_nil_r. repeat split; try lia; try discriminate.
  - simpl in H.
    destruct (net (length (sent tr0)) cfg) as [error|response] eqn:Hnet;
      [destruct (isTimeoutError error) eqn:Hto;
         [destruct (config error) as [originalRequest|] eqn:Hcfg|]|].
    + apply IH in H.
      destruct H as (new & k & Hsent & Hsl & Hlen & Hle & Hnone & Hfirst & Hretry & Hans & Herr).
      cbn [sent sleeps] in *. rewrite length_app in *. cbn [length] in *.
      exists (cfg :: new), (S k).
      split; [rewrite Hsent, <- app_assoc; reflexivity|].
      split; [rewrite Hsl, <- app_assoc; reflexivity|].
      split; [cbn [length]; lia|]. split; [lia|].
      split; [intros Ho; rewrite (Hnone Ho); reflexivity|].
      split; [intros c Hc; inversion Hc; reflexivity|].
      split; [|split].
      * intros [|j] Hj.
        -- exists cfg, error, originalRequest. rewrite Nat.add_0_r.
           repeat split; assumption.
        -- destruct (Hretry j) as (c & e & c' & Hl & Hn & He & Hc & Hnext); [lia|].
           exists c, e, c'.
           replace (length (sent tr0) + S j)%nat
             with (length (sent tr0) + 1 + j)%nat by lia.
           repeat split; assumption.
      * intros answer Ho. destruct (Hans answer Ho) as (c & Hl & Hc).
        exists c.
        replace (length (sent tr0) + S k)%nat
          with (length (sent tr0) + 1 + k)%nat by lia.
        split; assumption.
      * exact Herr.
    + inversion H; subst. exists [cfg], O. simpl. rewrite app_nil_r, Nat.add_0_r.
      repeat split; try lia; try discriminate;
        try (intros c Hc; inversion Hc; reflexivity);
        try (intros answer Ha; inversion Ha; subst; eauto; fail);
        try (intros e He; inversion He; subst; auto; fail).
    + inversion H; subst. exists [cfg], O. simpl. rewrite app_nil_r, Nat.add_0_r.
      repeat split; try lia; try discriminate;
        try (intros c Hc; inversion Hc; reflexivity);
        try (intros answer Ha; inversion Ha; subst; eauto; fail);
        try (intros e He; inversion He; subst; auto; fail).
    + inversion H; subst. exists [cfg], O. simpl. rewrite app_nil_r, Nat.add_0_r.
      repeat split; try lia; try discriminate;
        try (intros c Hc; inversion Hc; reflexivity);
        try (intros answer Ha; inversion Ha; subst; eauto; fail).
Qed.

(** X4.  Whatever the network does, the first request sent carries the
    caller's config, and every request the interceptor issues on its own
    comes after a request that was itself sent and was answered with a
    timeout error carrying a config; it is preceded by one sleep of exactly
    3000 ms and sends the config of that error.  A request answered with a
    response or with an error of another kind is therefore never followed
    by a retry. *)
Theorem interceptor_retries_only_timeouts (fuel : nat) (cfg : requestConfig)
    (out : option (AxiosError + AxiosResponse)) (tr : trace) :
  request fuel net cfg noTrace = (out, tr) →
  sleeps tr = replicate (interceptorRetries tr) 3000 ∧
  length (sent tr)
    = (interceptorRetries tr + match out with Some _ => 1 | None => 0 end)%nat ∧
  (∀ c, sent tr !! 0%nat = Some c → c = cfg) ∧
  (∀ j, (j < interceptorRetries tr)%nat →
        ∃ c e c', sent tr !! j = Some c ∧ net j c = inl e ∧
                  isTimeoutError e = true ∧ config e = Some c' ∧
                  (∀ c'', sent tr !! S j = Some c'' → c'' = c')).
Proof.
  intros H.
  destruct (request_trace _ _ _ _ _ H)
    as (new & k & Hsent & Hsl & Hlen & _ & _ & Hfirst & Hretry & _).
  simpl in Hsent, Hsl, Hretry. unfold interceptorRetries.
  rewrite Hsl, length_replicate, Hsent. repeat split; assumption.
Qed.

(** X5.  What [api.request] settles with is the answer of the network to
    the last request it sent, the one after all retries, not to the
    original one; and it never rejects with a timeout error that carries
    its config: such an error is always retried instead. *)
Theorem interceptor_surfaces_last_answer (fuel : nat) (cfg : requestConfig)
    (answer : AxiosError + AxiosResponse) (tr : trace) :
  request fuel net cfg noTrace = (Some answer, tr) →
  (∃ c, sent tr !! interceptorRetries tr = Some c ∧
        length (sent tr) = S (interceptorRetries tr) ∧
        net (interceptorRetries tr) c = answer) ∧
  (∀ e, answer = inl e → isTimeoutError e = false ∨ config e = None).
Proof.
  intros H.
  destruct (request_trace _ _ _ _ _ H)
    as (new & k & Hsent & Hsl & Hlen & _ & _ & _ & _ & Hans & Herr).
  simpl in Hsent, Hsl, Hans. unfold interceptorRetries.
  rewrite Hsl, length_replicate, Hsent. split.
  - destruct (Hans answer eq_refl) as (c & Hl & Hc). exists c.
    repeat split; [exact Hl | lia | exact Hc].
  - intros e ->. apply Herr. reflexivity.
Qed.

End InterceptorMore.

Lemma interceptor_retries_only_timeouts_witness :
  let tr := Api.mkTrace [Samples.chartRequest; Samples.chartRequest; Samples.chartRequest]
                        [3000; 3000] in
  Api.sleeps tr = replicate (Api.interceptorRetries tr) 3000 ∧
  length (Api.sent tr) = (Api.interceptorRetries tr + 1)%nat ∧
  (∀ c, Api.sent tr !! 0%nat = Some c → c = Samples.chartRequest) ∧
  (∀ j, (j < Api.interceptorRetries tr)%nat →
        ∃ c e c', Api.sent tr !! j = Some c ∧
                  Samples.timesOutThen 2 Samples.okResponse j c = inl e ∧
                  Api.isTimeoutError e = true ∧ Api.config e = Some c' ∧
                  (∀ c'', Api.sent tr !! S j = Some c'' → c'' = c')).
Proof.
  exact (interceptor_retries_only_timeouts (Samples.timesOutThen 2 Samples.okResponse) 3
           Samples.chartRequest (Some (inr Samples.okResponse))
           (Api.mkTrace [Samples.chartRequest; Samples.chartRequest; Samples.chartRequest]
                        [3000; 3000]) eq_refl).
Defined.

Lemma interceptor_surfaces_last_answer_witness :
  let tr := Api.mkTrace [Samples.chartRequest; Samples.chartRequest; Samples.chartRequest]
                        [3000; 3000] in
  (∃ c, Api.sent tr !! Api.interceptorRetries tr = Some c ∧
        length (Api.sent tr) = S (Api.interceptorRetries tr) ∧
        Samples.timesOutThen 2 Samples.okResponse (Api.interceptorRetries tr) c
        = inr Samples.okResponse) ∧
  (∀ e, inr Samples.okResponse = inl e → Api.isTimeoutError e = false ∨ Api.config e = None).
Proof.
  exact (interceptor_surfaces_last_answer (Samples.timesOutThen 2 Samples.okResponse) 3
           Samples.chartRequest (inr Samples.okResponse)
           (Api.mkTrace [Samples.chartRequest; Samples.chartRequest; Samples.chartRequest]
                        [3000; 3000]) eq_refl).
Defined.

(* ===================================================================== *)
(** ** Further properties: getStockChart under the useStockChart hook *)
(* ===================================================================== *)

Section HookMore.

Import UseStockChart.

Lemma valid_not_nullish point : isValidPoint point = true → nullish point = false.
Proof. destruct point; simpl; try discriminate; reflexivity. Qed.

(** What [onResponse] can leave in [data]. *)
Lemma onResponse_data response st :
  data (onResponse response st) = data st ∨
  ∃ points, data (onResponse response st) = List.filter isValidPoint points.
Proof.
  unfold onResponse. destruct (validStructure response); [|left; reflexivity].
  destruct (get (get response "data") "data") as [| | | | |[|first others]|];
    try (left; reflexivity).
  - right. exists []. reflexivity.
  - destruct (nullish first); [left; reflexivity|]. right. eauto.
Qed.

Lemma onResponse_error_keeps_data response st :
  error st = None → is_Some (error (onResponse response st)) →
  data (onResponse response st) = data st.
Proof.
  unfold onResponse. intros Hn.
  destruct (validStructure response); [|reflexivity].
  destruct (get (get response "data") "data") as [| | | | |[|first others]|];
    try reflexivity.
  - simpl. rewrite Hn. intros [? ?]; discriminate.
  - destruct (nullish first); [reflexivity|]. simpl. rewrite Hn. intros [? ?]; discriminate.
Qed.

(** X6.  End to end: for a body with truthy [success] whose series is not
    empty and does not start with [null], the hook ends with exactly the
    valid points of the series as [data], in their order, no error, and
    [loading] cleared; the second validation of the hook removes nothing. *)
Theorem useStockChart_shows_valid_points
    (symbol : string) (rd first : jsval) (others : list jsval) (st : state) :
  symbol ≠ "" →
  truthy (get rd "success") = true →
  get (get rd "data") "data" = JArr (first :: others) →
  nullish first = false →
  fetchChartData symbol (inr rd) st
    = mkState (List.filter StockService.isValid (first :: others)) false None.
Proof.
  intros Hsym Hs Hd Hf. unfold fetchChartData.
  rewrite (truthy_symbol _ Hsym). cbn [negb StockService.getStockChartCall].
  rewrite (getStockChart_success _ _ _ Hs Hd Hf). cbn [StockService.outcome].
  rewrite filterPoints_fst.
  set (valid := List.filter StockService.isValid (first :: others)).
  unfold onResponse, validStructure.
  cbn [StockService.newResponse get field String.eqb Ascii.eqb Bool.eqb truthy isArray andb].
  rewrite Hs.
  assert (Hall : Forall (λ p, isValidPoint p = true) valid) by apply filtered_all_valid.
  destruct valid as [|v rest] eqn:Hvalid; [reflexivity|].
  rewrite (valid_not_nullish v) by (inversion Hall; assumption).
  assert (Hid : List.filter isValidPoint (v :: rest) = v :: rest).
  { rewrite <- Hvalid. subst valid. change isValidPoint with StockService.isValid.
    rewrite <- (filterPoints_fst (List.filter _ _)).
    rewrite filter_all_valid by apply filtered_all_valid. reflexivity. }
  rewrite Hid. reflexivity.
Qed.

(** X7.  The hook never holds a point that fails the validation: if
    every point of [data] is valid before a fetch, so is every point of
    [data] after it, however the fetch ends. *)
Theorem useStockChart_data_stays_valid
    (symbol : string) (net : thrown + jsval) (st : state) :
  Forall (λ p, isValidPoint p = true) (data st) →
  Forall (λ p, isValidPoint p = true) (data (fetchChartData symbol net st)).
Proof.
  intros Hst. unfold fetchChartData.
  destruct (negb (truthy (JStr symbol))); [exact Hst|].
  cbn [setLoading data].
  destruct (StockService.outcome (StockService.getStockChartCall net)) as [err|response].
  - exact Hst.
  - destruct (onResponse_data response (setError None (setLoading true st)))
      as [-> | [points ->]]; [exact Hst|].
    apply filtered_all_valid.
Qed.

Lemma useStockChart_data_stays_valid_witness :
  Forall (λ p, isValidPoint p = true)
         (data (fetchChartData "AAPL" (inr Samples.twoPointBody) initial)).
Proof.
  refine (useStockChart_data_stays_valid "AAPL" (inr Samples.twoPointBody) initial _).
  constructor.
Defined.

(** X8.  Every fetch for a non-empty symbol ends with [loading] cleared,
    and a fetch that ends in an error leaves [data] as it was: the series
    loaded before stays on display. *)
Theorem useStockChart_error_keeps_data
    (symbol : string) (net : thrown + jsval) (st : state) :
  symbol ≠ "" →
  loading (fetchChartData symbol net st) = false ∧
  (is_Some (error (fetchChartData symbol net st)) →
   data (fetchChartData symbol net st) = data st).
Proof.
  intros Hsym. unfold fetchChartData.
  rewrite (truthy_symbol _ Hsym). cbn [negb]. split; [reflexivity|].
  cbn [setLoading data error].
  destruct (StockService.outcome (StockService.getStockChartCall net)) as [err|response].
  - reflexivity.
  - intros Herr.
    exact (onResponse_error_keeps_data response (setError None (setLoading true st))
             eq_refl Herr).
Qed.

Lemma useStockChart_error_keeps_data_witness :
  let st := fetchChartData "AAPL" (inr Samples.twoPointBody) initial in
  loading (fetchChartData "AAPL" (inl Samples.networkError) st) = false ∧
  (is_Some (error (fetchChartData "AAPL" (inl Samples.networkError) st)) →
   data (fetchChartData "AAPL" (inl Samples.networkError) st) = data st).
Proof.
  intros st.
  refine (useStockChart_error_keeps_data "AAPL" (inl Samples.networkError) st _).
  discriminate.
Defined.

(** X9.  A series that starts with [null] is reported as an error, also
    when all its other points are valid: [getStockChart] raises on the
    first point before it filters, and the hook shows the message of that
    TypeError and keeps the previous [data]. *)
Theorem useStockChart_null_first_point_is_error
    (symbol : string) (rd first : jsval) (others : list jsval) (st : state) :
  symbol ≠ "" →
  truthy (get rd "success") = true →
  get (get rd "data") "data" = JArr (first :: others) →
  nullish first = true →
  fetchChartData symbol (inr rd) st = mkState (data st) false (Some typeErrorMessage).
Proof.
  intros Hsym Hs Hd Hf. unfold fetchChartData.
  rewrite (truthy_symbol _ Hsym). cbn [negb StockService.getStockChartCall].
  destruct (get_array_receiver _ _ _ Hd) as [dfs Hdata].
  assert (∃ fs, rd = JObj fs) as [fs ->].
  { destruct rd; simpl in Hdata; try discriminate; eauto;
      destruct (String.eqb "data" "length"); discriminate. }
  assert (Ht : truthy (get (JObj fs) "data") = true) by (rewrite Hdata; reflexivity).
  unfold StockService.getStockChart. cbn [nullish truthy].
  rewrite Hs, Ht, Hd. cbn [truthy andb]. rewrite Hf. reflexivity.
Qed.

Lemma useStockChart_null_first_point_is_error_witness :
  fetchChartData "AAPL" (inr Samples.nullFirstBody) initial
    = mkState [] false (Some typeErrorMessage).
Proof.
  refine (useStockChart_null_first_point_is_error "AAPL" Samples.nullFirstBody JNull
            [Samples.point1] initial _ eq_refl eq_refl eq_refl).
  discriminate.
Defined.

Lemma useStockChart_shows_valid_points_witness :
  fetchChartData "AAPL" (inr Samples.twoPointBody) initial
    = mkState [Samples.point1] false None.
Proof.
  refine (useStockChart_shows_valid_points "AAPL" Samples.twoPointBody Samples.point1
            [Samples.point2] initial _ eq_refl eq_refl eq_refl).
  discriminate.
Defined.

End HookMore.

(* ===================================================================== *)
(** ** Further properties: the cache of TopStocksGrid *)
(* ===================================================================== *)

Section GridMore.

Import TopStocksGrid SpecMore.

(** A fetch that ends with a truthy [success] stores the listing under its
    index, stamped with the time of the answer. *)
Lemma fetchStocks_resume_success indexName now response st :
  truthy (get response "success") = true →
  cache (fetchStocks_resume indexName now (inr response) st)
    = <[indexName := mkCacheData (get response "data") now false]> (cache st) ∧
  topStocks (fetchStocks_resume indexName now (inr response) st) = get response "data" ∧
  lastUpdated (fetchStocks_resume indexName now (inr response) st) = Some now ∧
  busy (fetchStocks_resume indexName now (inr response) st) = false.
Proof.
  intros Hs. unfold fetchStocks_resume.
  assert (Hn : nullish response = false) by (destruct response; try reflexivity; discriminate).
  rewrite Hn, Hs. unfold fetchStocks_catch.
  destruct (nullish (get response "data")); [|repeat split].
  destruct (includes "timeout" _); repeat split.
Qed.

(** What any fetch can do to the cache. *)
Lemma fetchStocks_resume_cache indexName now net st :
  cache (fetchStocks_resume indexName now net st) = cache st ∨
  ∃ v, cache (fetchStocks_resume indexName now net st)
       = <[indexName := mkCacheData v now false]> (cache st).
Proof.
  destruct (failed net) eqn:Hf.
  - destruct (fetchStocks_resume_failed indexName now net st Hf) as [msg ->]. auto.
  - destruct net as [err|response]; [discriminate|]. simpl in Hf.
    apply orb_false_elim in Hf as [_ Hs]. apply negb_false_iff in Hs.
    right. eexists. apply (fetchStocks_resume_success _ _ _ _ Hs).
Qed.

(** X10.  Round trip through the cache: after a fetch for an index was
    answered with a truthy [success] at time [t0], a click on that index
    at time [t1] shows the listing of that answer and its time without any
    service call as long as [t1 - t0 < CACHE_DURATION], and issues the
    service call of the index as soon as [t1 - t0 >= CACHE_DURATION]. *)
Theorem cached_listing_served_until_expiry
    (indexName : string) (t0 t1 : Z) (response : jsval) (st : state) :
  truthy (get response "success") = true →
  let st1 := fetchStocks_resume indexName t0 (inr response) st in
  (t1 - t0 < CACHE_DURATION →
   handleIndexChange (cache st1) indexName t1 st1
     = (mkState (get response "data") false None indexName (Some t0) (cache st1), None)) ∧
  (CACHE_DURATION ≤ t1 - t0 →
   snd (handleIndexChange (cache st1) indexName t1 st1) = Some (requestFor indexName)).
Proof.
  intros Hs st1.
  assert (Hl : cache st1 !! indexName = Some (mkCacheData (get response "data") t0 false)).
  { subst st1. rewrite (proj1 (fetchStocks_resume_success _ _ _ _ Hs)).
    apply lookup_insert_eq. }
  split; intros Ht.
  - apply (handleIndexChange_hit _ _ _ _ _ Hl).
    unfold isCacheValid. simpl. apply Z.ltb_lt. exact Ht.
  - rewrite handleIndexChange_request. unfold servedFromCache, isCacheValid.
    rewrite Hl. simpl. destruct (Z.ltb_spec (t1 - t0) CACHE_DURATION); [lia|reflexivity].
Qed.

Lemma cached_listing_served_until_expiry_witness :
  let st1 := fetchStocks_resume "all" 100 (inr Samples.stocksBody) initial in
  handleIndexChange (cache st1) "all" 1100 st1
    = (mkState Samples.stocks false None "all" (Some 100) (cache st1), None) ∧
  snd (handleIndexChange (cache st1) "all" 400000 st1) = Some (requestFor "all").
Proof.
  split.
  - refine (proj1 (cached_listing_served_until_expiry "all" 100 1100 Samples.stocksBody
                     initial eq_refl) _).
    reflexivity.
  - refine (proj2 (cached_listing_served_until_expiry "all" 100 400000 Samples.stocksBody
                     initial eq_refl) _).
    discriminate.
Defined.

(** X11.  Whatever happens to one index leaves the cache entries of all
    other indexes alone: a click, a refresh or the end of a fetch changes
    at most the entry of the index it is about. *)
Theorem step_changes_one_entry (w : world) (now : Z) (ev : event) (k : string) :
  k ≠ eventIndex w ev →
  cache (comp (step w (now, ev))) !! k = cache (comp w) !! k.
Proof.
  intros Hk. destruct ev as [indexName| |indexName net];
    cbn [eventIndex] in Hk; unfold step.
  - destruct (servedFromCache (cache (comp w)) indexName now) eqn:Hs.
    + unfold servedFromCache in Hs.
      destruct (cache (comp w) !! indexName) as [cd|] eqn:Hl; [|discriminate].
      rewrite (handleIndexChange_hit _ _ _ _ _ Hl Hs). reflexivity.
    + rewrite (handleIndexChange_miss _ _ _ _ Hs). cbn [comp cache].
      apply lookup_insert_ne. congruence.
  - reflexivity.
  - destruct (0 <? outstanding indexName w)%nat; [|reflexivity]. cbn [comp].
    destruct (fetchStocks_resume_cache indexName now net (comp w)) as [-> | [v ->]];
      [reflexivity|].
    apply lookup_insert_ne. congruence.
Qed.

Lemma step_changes_one_entry_witness :
  let w := run mounted [ (0, IndexChange "all");
                         (100, Settle "all" (inr Samples.stocksBody)) ] in
  cache (comp (step w (200, IndexChange "dow"))) !! "all" = cache (comp w) !! "all".
Proof.
  intros w.
  refine (step_changes_one_entry w 200 (IndexChange "dow") "all" _).
  discriminate.
Defined.

(** An entry that is marked loading is the empty placeholder. *)
Lemma step_keeps_placeholders (w : world) (te : Z * event) :
  (∀ k cd, cache (comp w) !! k = Some cd → loading cd = true → data cd = JArr []) →
  ∀ k cd, cache (comp (step w te)) !! k = Some cd → loading cd = true → data cd = JArr [].
Proof.
  intros Hinv k cd. destruct te as [now ev].
  destruct ev as [indexName| |indexName net]; unfold step.
  - destruct (servedFromCache (cache (comp w)) indexName now) eqn:Hs.
    + unfold servedFromCache in Hs.
      destruct (cache (comp w) !! indexName) as [cd'|] eqn:Hl; [|discriminate].
      rewrite (handleIndexChange_hit _ _ _ _ _ Hl Hs). cbn [comp cache]. apply Hinv.
    + rewrite (handleIndexChange_miss _ _ _ _ Hs). cbn [comp cache].
      rewrite lookup_insert. case_decide.
      * intros Heq _. inversion Heq. reflexivity.
      * apply Hinv.
  - apply Hinv.
  - destruct (0 <? outstanding indexName w)%nat; [|apply Hinv]. cbn [comp].
    destruct (fetchStocks_resume_cache indexName now net (comp w)) as [-> | [v ->]];
      [apply Hinv|].
    rewrite lookup_insert. case_decide.
    + intros Heq Hload. inversion Heq; subst. discriminate.
    + apply Hinv.
Qed.

(** What the end of a fetch writes into the cache is not marked loading. *)
Lemma settle_writes_unmarked (w : world) (now : Z) (indexName : string)
    (net : thrown + jsval) (k : string) (cd : CacheData) :
  cache (comp (step w (now, Settle indexName net))) !! k = Some cd →
  cache (comp w) !! k = Some cd ∨
  (k = indexName ∧ loading cd = false ∧ timestamp cd = now).
Proof.
  unfold step. destruct (0 <? outstanding indexName w)%nat; [|auto]. cbn [comp].
  destruct (fetchStocks_resume_cache indexName now net (comp w)) as [-> | [v ->]]; [auto|].
  rewrite lookup_insert. case_decide; [|auto].
  intros Heq. inversion Heq; subst. right. auto.
Qed.

(** X12.  Through every sequence of clicks, refreshes and answers after
    the mount, a cache entry marked [loading] carries no listing: it is the
    empty placeholder; and an entry that the end of a fetch writes is not
    marked [loading] and is stamped with the time of that end. *)
Theorem loading_entries_are_empty (tes : list (Z * event)) :
  (∀ k cd, cache (comp (run mounted tes)) !! k = Some cd →
           loading cd = true → data cd = JArr []) ∧
  (∀ now indexName net k cd,
     cache (comp (step (run mounted tes) (now, Settle indexName net))) !! k = Some cd →
     cache (comp (run mounted tes)) !! k = Some cd ∨
     (k = indexName ∧ loading cd = false ∧ timestamp cd = now)).
Proof.
  split; [|intros now indexName net k cd; apply settle_writes_unmarked].
  unfold run.
  assert (H : ∀ w, (∀ k cd, cache (comp w) !! k = Some cd → loading cd = true →
                            data cd = JArr []) →
                   ∀ k cd, cache (comp (fold_left step tes w)) !! k = Some cd →
                           loading cd = true → data cd = JArr []).
  { induction tes as [|te tes IH]; intros w Hinv; simpl; [exact Hinv|].
    apply IH. apply step_keeps_placeholders. exact Hinv. }
  apply H. intros k cd Hl. simpl in Hl. rewrite lookup_empty in Hl. discriminate.
Qed.

(** The theorem at a session with a listing cached for "all", a fetch for
    "dow" in flight and the answer for "dow" arriving. *)
Lemma loading_entries_are_empty_witness :
  let tes := [ (0, IndexChange "all"); (100, Settle "all" (inr Samples.stocksBody));
               (300, IndexChange "dow") ] in
  (cache (comp (run mounted tes)) !! "dow" = Some (mkCacheData (JArr []) 300 true) ∧
   data (mkCacheData (JArr []) 300 true) = JArr []) ∧
  (cache (comp (step (run mounted tes) (400, Settle "dow" (inr Samples.stocksBody)))) !! "dow"
     = Some (mkCacheData Samples.stocks 400 false) ∧
   (cache (comp (run mounted tes)) !! "dow" = Some (mkCacheData Samples.stocks 400 false) ∨
    ("dow" = "dow" ∧ loading (mkCacheData Samples.stocks 400 false) = false ∧
     timestamp (mkCacheData Samples.stocks 400 false) = 400))).
Proof.
  intros tes.
  assert (H1 : cache (comp (run mounted tes)) !! "dow"
               = Some (mkCacheData (JArr []) 300 true)) by (vm_compute; reflexivity).
  assert (H2 : cache (comp (step (run mounted tes)
                              (400, Settle "dow" (inr Samples.stocksBody)))) !! "dow"
               = Some (mkCacheData Samples.stocks 400 false)) by (vm_compute; reflexivity).
  split; split; [exact H1| |exact H2|].
  - exact (proj1 (loading_entries_are_empty tes) "dow" _ H1 eq_refl).
  - exact (proj2 (loading_entries_are_empty tes) 400 "dow" (inr Samples.stocksBody)
             "dow" _ H2).
Defined.

(** X13.  After a click started a fetch at time [t0] and the fetch was
    rejected, or answered with no body or with a falsy [success], the
    render still takes the loading branch for that index: the error is set
    but [isLoading] holds, because the placeholder stays marked loading.
    A further click on the index before [t0 + CACHE_DURATION] starts no
    fetch and changes nothing about that.  (An answer with truthy
    [success] and no [data] ends differently and is not covered.) *)
Theorem failed_click_fetch_keeps_loading_view
    (st : state) (indexName : string) (t0 t1 t2 : Z) (net : thrown + jsval) :
  failed net = true →
  snd (handleIndexChange (cache st) indexName t0 st) ≠ None →
  t2 - t0 < CACHE_DURATION →
  let st' := fetchStocks_resume indexName t1 net
               (fst (handleIndexChange (cache st) indexName t0 st)) in
  (isLoading st' = true ∧ busy st' = false ∧ is_Some (error st')) ∧
  snd (handleIndexChange (cache st') indexName t2 st') = None ∧
  isLoading (fst (handleIndexChange (cache st') indexName t2 st')) = true.
Proof.
  intros Hf Hreq Ht.
  assert (Hmiss : servedFromCache (cache st) indexName t0 = false).
  { rewrite handleIndexChange_request in Hreq.
    destruct (servedFromCache (cache st) indexName t0); [contradiction|reflexivity]. }
  rewrite (handleIndexChange_miss _ _ _ _ Hmiss). cbn [fst].
  destruct (fetchStocks_resume_failed indexName t1 net
              (mkState (topStocks st) true None indexName (lastUpdated st)
                 (<[indexName := mkCacheData (JArr []) t0 true]> (cache st))) Hf)
    as [msg ->].
  cbv zeta.
  assert (Hl : (<[indexName := mkCacheData (JArr []) t0 true]> (cache st)) !! indexName
               = Some (mkCacheData (JArr []) t0 true)) by apply lookup_insert_eq.
  assert (Hv : isCacheValid t2 (mkCacheData (JArr []) t0 true) = true).
  { unfold isCacheValid. simpl. apply Z.ltb_lt. exact Ht. }
  split; [|split].
  - unfold isLoading. cbn [busy cache selectedIndex error]. rewrite Hl.
    repeat split. eauto.
  - cbn [cache]. rewrite (handleIndexChange_hit _ _ _ _ _ Hl Hv). reflexivity.
  - cbn [cache]. rewrite (handleIndexChange_hit _ _ _ _ _ Hl Hv).
    unfold isLoading. cbn [fst busy cache selectedIndex]. rewrite Hl. reflexivity.
Qed.

Lemma failed_click_fetch_keeps_loading_view_witness :
  let st' := fetchStocks_resume "all" 500 (inl Samples.networkError)
               (fst (handleIndexChange (cache initial) "all" 0 initial)) in
  (isLoading st' = true ∧ busy st' = false ∧ is_Some (error st')) ∧
  snd (handleIndexChange (cache st') "all" 60000 st') = None ∧
  isLoading (fst (handleIndexChange (cache st') "all" 60000 st')) = true.
Proof.
  refine (failed_click_fetch_keeps_loading_view initial "all" 0 500 60000
            (inl Samples.networkError) eq_refl _ _).
  - discriminate.
  - reflexivity.
Defined.

End GridMore.

(* ===================================================================== *)
(** ** Further properties: the user-agent tests and the range buttons *)
(* ===================================================================== *)

Section MobileFacts.

Import MobileUtils.

Lemma prefix_lower needle hay :
  String.prefix needle hay = true → String.prefix (lower needle) (lower hay) = true.
Proof.
  revert hay. induction needle as [|a needle IH]; intros hay;
    [destruct hay; reflexivity|].
  destruct hay as [|b hay]; simpl; [discriminate|].
  destruct (ascii_dec a b) as [->|]; [|discriminate].
  intros H. destruct (ascii_dec (lowerAscii b) (lowerAscii b)); [auto|contradiction].
Qed.

Lemma includes_lower needle hay :
  includes needle hay = true → includes (lower needle) (lower hay) = true.
Proof.
  induction hay as [|b hay IH]; simpl; rewrite !orb_true_iff.
  - intros [H|H]; [|discriminate]. left. apply (prefix_lower needle ""). exact H.
  - intros [H|H]; [left; apply (prefix_lower needle (String b hay)); exact H|].
    right. apply IH. exact H.
Qed.

(** X14.  The three user-agent tests agree: every user agent that [isIOS]
    or [isAndroid] accepts is accepted by [isMobile], in whatever case the
    device name is spelled. *)
Theorem ios_and_android_are_mobile (userAgent : string) :
  isIOS userAgent = true ∨ isAndroid userAgent = true → isMobile userAgent = true.
Proof.
  unfold isIOS, isAndroid, isMobile, test, testIgnoreCase. cbn [existsb].
  rewrite !orb_false_r, !orb_true_iff.
  intros [[H|[H|H]]|H]; apply includes_lower in H; auto 10.
Qed.

Lemma ios_and_android_are_mobile_witness :
  isMobile "Mozilla/5.0 (iPhone; CPU iPhone OS 16_0 like Mac OS X)" = true.
Proof.
  refine (ios_and_android_are_mobile
            "Mozilla/5.0 (iPhone; CPU iPhone OS 16_0 like Mac OS X)" _).
  left. reflexivity.
Defined.

End MobileFacts.

Section RangeFacts.

Import StockChart.

(** X15.  Whatever range is chosen, the chart asks for hourly bars exactly
    when it asks for the one-day period and for daily bars otherwise, and
    records the range as selected.  A range without a case of its own
    falls back to the one-day period with hourly bars; among the buttons
    rendered that is the case of "3M" and of no other. *)
Theorem handleRangeChange_interval_follows_period (range : string) (st : state) :
  selectedRange (handleRangeChange range st) = range ∧
  (interval (handleRangeChange range st) = "1h" ↔ period (handleRangeChange range st) = "1d") ∧
  (interval (handleRangeChange range st) = "1h" ∨ interval (handleRangeChange range st) = "1d") ∧
  (¬ In range ["1D"; "5D"; "1M"; "6M"; "YTD"; "1Y"; "5Y"; "All"] →
   period (handleRangeChange range st) = "1d" ∧ interval (handleRangeChange range st) = "1h") ∧
  List.filter (λ r, String.eqb (period (handleRangeChange r st)) "1d"
                    && negb (String.eqb r "1D")) rangeButtons = ["3M"].
Proof.
  unfold handleRangeChange.
  split; [|split; [|split; [|split; [|reflexivity]]]].
  - repeat (destruct (String.eqb range _); [reflexivity|]). reflexivity.
  - repeat (destruct (String.eqb range _); [simpl; split; (reflexivity || discriminate)|]).
    simpl. split; reflexivity.
  - repeat (destruct (String.eqb range _); [simpl; auto|]). simpl. auto.
  - intros Hnot.
    repeat match goal with
           | |- context [String.eqb range ?label] =>
               destruct (String.eqb_spec range label) as [->|];
               [exfalso; apply Hnot; simpl; auto 10|]
           end.
    simpl. auto.
Qed.

Lemma handleRangeChange_interval_follows_period_witness :
  period (handleRangeChange "3M" initial) = "1d" ∧
  interval (handleRangeChange "3M" initial) = "1h".
Proof.
  refine (proj1 (proj2 (proj2 (proj2
            (handleRangeChange_interval_follows_period "3M" initial)))) _).
  simpl. intros H. repeat (destruct H as [H|H]; [discriminate H|]). exact H.
Defined.

End RangeFacts.

(* ===================================================================== *)
(** ** Further properties: useStock and the stock search *)
(* ===================================================================== *)

Section UseStockFacts.

Import UseStock.

(** X16.  Whenever the call of [getStockInfo] settles ([net] is how), the
    hook of src/hooks/useStock.ts ends the fetch for a non-empty symbol
    with [loading] cleared and in one of two ways: with no error and, as
    [data], the truthy [data] field of a body whose [success] is truthy; or
    with an error and [data] as it was.  It never stores a falsy value and
    never sets both.  (While the call has not settled, nothing after the
    [await] runs; the theorem says nothing about that.) *)
Theorem useStock_data_or_error (symbol : string) (net : thrown + jsval) (st : state) :
  symbol ≠ "" →
  loading (fetchStock symbol net st) = false ∧
  ((error (fetchStock symbol net st) = None ∧
    ∃ body, net = inr body ∧ truthy (get body "success") = true ∧
            truthy (get body "data") = true ∧
            data (fetchStock symbol net st) = get body "data") ∨
   (is_Some (error (fetchStock symbol net st)) ∧
    data (fetchStock symbol net st) = data st)).
Proof.
  intros Hsym. unfold fetchStock. rewrite (truthy_symbol _ Hsym). cbn [negb].
  split; [reflexivity|].
  destruct net as [err|body]; simpl.
  - right. split; [eauto|reflexivity].
  - destruct (nullish body) eqn:Hn; simpl.
    + right. split; [eauto|reflexivity].
    + destruct (truthy body); simpl; [|right; split; [eauto|reflexivity]].
      destruct (truthy (get body "success")) eqn:Hs; simpl;
        [|right; split; [eauto|reflexivity]].
      destruct (truthy (get body "data")) eqn:Hd; simpl;
        [|right; split; [eauto|reflexivity]].
      left. split; [reflexivity|]. exists body. auto.
Qed.

Lemma useStock_data_or_error_witness :
  loading (fetchStock "AAPL" (inr Samples.errorBody) initial) = false ∧
  ((error (fetchStock "AAPL" (inr Samples.errorBody) initial) = None ∧
    ∃ body, @inr thrown jsval Samples.errorBody = inr body ∧
            truthy (get body "success") = true ∧
            truthy (get body "data") = true ∧
            data (fetchStock "AAPL" (inr Samples.errorBody) initial) = get body "data") ∨
   (is_Some (error (fetchStock "AAPL" (inr Samples.errorBody) initial)) ∧
    data (fetchStock "AAPL" (inr Samples.errorBody) initial) = data initial)).
Proof.
  refine (useStock_data_or_error "AAPL" (inr Samples.errorBody) initial _).
  discriminate.
Defined.

(** X17.  The hook of frontend/src/hooks/useStock.ts does not look at the
    envelope: for every body that is not null it stores the [data] field
    of the body, whatever [success] says, and reports no error.  For the
    error envelope of the API that is [undefined], without an error. *)
Theorem useStock_frontend_stores_unchecked (symbol : string) (body : jsval) (st : state) :
  symbol ≠ "" →
  nullish body = false →
  fetchStock_frontend symbol (inr body) st = mkState (get body "data") false None ∧
  (get body "data" = JUndefined →
   data (fetchStock_frontend symbol (inr body) st) = JUndefined ∧
   error (fetchStock_frontend symbol (inr body) st) = None).
Proof.
  intros Hsym Hn. unfold fetchStock_frontend, getStockInfo_frontend.
  rewrite (truthy_symbol _ Hsym), Hn. cbn [negb]. split; [reflexivity|].
  intros Hd. simpl. auto.
Qed.

Lemma useStock_frontend_stores_unchecked_witness :
  fetchStock_frontend "AAPL" (inr Samples.errorBody) initial = mkState JUndefined false None.
Proof.
  refine (proj1 (useStock_frontend_stores_unchecked "AAPL" Samples.errorBody initial _ _)).
  - discriminate.
  - reflexivity.
Defined.

End UseStockFacts.

Section SearchFacts.

Import StockSearch.

Lemma orElse_truthy r : truthy (orElse r (JArr [])) = true.
Proof. unfold orElse. destruct (truthy r) eqn:Hr; [exact Hr|reflexivity]. Qed.

(** X18.  The search box calls the service exactly when the query has at
    least two code units.  However the call ends, [suggestions] is never
    left null, undefined or otherwise falsy; it is the empty list for a
    short query, for a rejected call and for a falsy result, and
    [isLoading] is cleared after every call.  With the service of
    src/services, a body that fails its envelope test gives the empty
    list. *)
Theorem handleSearch_suggestions_never_nullish
    (searchQuery : jsstring) (results : thrown + jsval) (st : state) :
  snd (handleSearch searchQuery results st) = negb (length searchQuery <? 2)%nat ∧
  truthy (suggestions (fst (handleSearch searchQuery results st))) = true ∧
  (snd (handleSearch searchQuery results st) = true →
   isLoading (fst (handleSearch searchQuery results st)) = false) ∧
  (snd (handleSearch searchQuery results st) = false ∨
   (∃ err, results = inl err) ∨ (∃ r, results = inr r ∧ truthy r = false) →
   suggestions (fst (handleSearch searchQuery results st)) = JArr []) ∧
  (∀ rd, truthy rd && truthy (get rd "success") && truthy (get rd "data") = false →
         searchStocks (inr rd) = inr (JArr [])) ∧
  (∀ net r, searchStocks net = inr r → truthy r = true).
Proof.
  unfold handleSearch.
  destruct (length searchQuery <? 2)%nat eqn:Hlen; cbn [fst snd negb].
  - repeat split; try reflexivity; try discriminate.
    + intros rd Hrd. unfold searchStocks. rewrite Hrd. reflexivity.
    + intros [err|rd] r; [discriminate|]. unfold searchStocks.
      destruct (_ && _); intros Hr; inversion Hr; [apply orElse_truthy|reflexivity].
  - split; [reflexivity|]. split; [|split; [reflexivity|split; [|split]]].
    + destruct results as [err|r]; [reflexivity|apply orElse_truthy].
    + intros [Hc|[[err ->]|(r & -> & Hr)]]; [discriminate|reflexivity|].
      simpl. unfold orElse. rewrite Hr. reflexivity.
    + intros rd Hrd. unfold searchStocks. rewrite Hrd. reflexivity.
    + intros [err|rd] r; [discriminate|]. unfold searchStocks.
      destruct (_ && _); intros Hr; inversion Hr; [apply orElse_truthy|reflexivity].
Qed.

End SearchFacts.

(* ===================================================================== *)
(** ** Further properties: AuthContext on top of retryApiRequest *)
(* ===================================================================== *)

Section RetryCounting.

Import Api.

Context {T E W : Type}.
Variable requestFn : W → (E + T) * W.
Variable measure : W → nat.
Hypothesis one_per_call : ∀ w, measure (snd (requestFn w)) = S (measure w).

(** When every call of the request function moves a counter of the world
    by one, the counter moves by the number of calls. *)
Lemma retryLoop_counts fuel maxRetries delay i lastError w fx r w' fx' :
  retryLoop requestFn fuel maxRetries delay i lastError w fx = Some (r, w', fx') →
  (measure w' + invocations fx = measure w + invocations fx')%nat.
Proof.
  revert i lastError w fx.
  induction fuel as [|fuel IH]; intros i lastError w fx; simpl.
  - destruct (i <? maxRetries); [discriminate|]. intros H. inversion H. reflexivity.
  - destruct (i <? maxRetries); [|intros H; inversion H; reflexivity].
    pose proof (one_per_call w) as Hone.
    destruct (requestFn w) as [[error|value] w1]; simpl in Hone.
    + intros H. apply IH in H.
      destruct (i <? maxRetries - 1); simpl in H; lia.
    + intros H. inversion H; subst. simpl. lia.
Qed.

End RetryCounting.

Section AuthFacts.

Import AuthContext.

Lemma fetchUserData_counts net w :
  fetches (snd (fetchUserData true net w)) = S (fetches w).
Proof.
  unfold fetchUserData. cbn [negb].
  destruct (net (fetches w)) as [err|[|] [err|userData]]; reflexivity.
Qed.

(** X19.  [fetchUserInfo] always settles and sends at most three requests,
    one per attempt of [retryApiRequest]; when the provider was captured
    unmounted it sends none and changes nothing. *)
Theorem fetchUserInfo_at_most_three_requests (isMounted : bool) (net : network) (w : world) :
  ∃ w' fx,
    fetchUserInfo isMounted net w = Some (w', fx) ∧
    (Api.invocations fx ≤ 3)%nat ∧
    (isMounted = true → fetches w' = (fetches w + Api.invocations fx)%nat) ∧
    (isMounted = false → w' = w).
Proof.
  unfold fetchUserInfo.
  destruct (retryApiRequest_bounded_core (fetchUserData isMounted net) 3 1000 w)
    as (r & w' & fx & Hr & Hle).
  rewrite Hr.
  assert (Hcount : isMounted = true →
                   fetches w' = (fetches w + Api.invocations fx)%nat).
  { intros ->.
    pose proof (retryLoop_counts (fetchUserData true net) fetches
                  (fetchUserData_counts net) _ _ _ _ _ _ _ _ _ _ Hr) as Hc.
    simpl in Hc. lia. }
  assert (Hunmounted : isMounted = false → r = Api.Resolved tt ∧ w' = w).
  { intros ->. vm_compute in Hr. inversion Hr. auto. }
  destruct r as [[]|e].
  - exists w', fx. split; [reflexivity|]. split; [exact Hle|]. split; [exact Hcount|].
    intros Hm. apply Hunmounted. exact Hm.
  - destruct isMounted.
    + exists (logout w'), fx. split; [reflexivity|]. split; [exact Hle|].
      split; [|discriminate]. intros _. simpl. apply Hcount. reflexivity.
    + destruct (Hunmounted eq_refl) as [Habs _]. discriminate.
Qed.

(** X20.  A response that is not [ok] (an expired token, say) is not
    retried: [fetchUserData] resolves after logging out, so one request is
    sent, nothing is waited for, and the session is cleared: [user] and
    [token] are null and the token is removed from the storage. *)
Theorem fetchUserInfo_http_error_logs_out_at_once
    (net : network) (w : world) (json : thrown + jsval) :
  net (fetches w) = FetchResponds false json →
  fetchUserInfo true net w
    = Some (mkWorld JNull JNull (isLoading w) (storage w ++ [RemoveItem "token"])
                    (alerts w) (S (fetches w)),
            Api.mkEffects 1 []).
Proof.
  intros Hnet. unfold fetchUserInfo, Api.retryApiRequest.
  rewrite (retryLoop_resolves_after (fetchUserData true net) 0 (Z.to_nat 3) 3 1000 0 None
             w (Api.mkEffects 0 []) w tt (logout (fetched w)));
    [reflexivity|reflexivity| |lia|simpl; lia].
  unfold fetchUserData. cbn [negb]. rewrite Hnet. reflexivity.
Qed.

Lemma fetchUserInfo_http_error_logs_out_at_once_witness :
  fetchUserInfo true (λ _, FetchResponds false (inr JNull))
    (mkWorld (JStr "ann") (JStr "t0k3n") false [] [] 0)
  = Some (mkWorld JNull JNull false [RemoveItem "token"] [] 1, Api.mkEffects 1 []).
Proof.
  exact (fetchUserInfo_http_error_logs_out_at_once (λ _, FetchResponds false (inr JNull))
           (mkWorld (JStr "ann") (JStr "t0k3n") false [] [] 0) (inr JNull) eq_refl).
Defined.

(** X21.  When the next three requests all fail below HTTP (the fetch
    rejects), [fetchUserInfo] sends exactly these three, waits 1000 ms and
    2000 ms between them, and then clears the session. *)
Theorem fetchUserInfo_network_failure_logs_out_after_three
    (net : network) (w : world) (e0 e1 e2 : thrown) :
  net (fetches w) = FetchRejects e0 →
  net (S (fetches w)) = FetchRejects e1 →
  net (S (S (fetches w))) = FetchRejects e2 →
  fetchUserInfo true net w
    = Some (mkWorld JNull JNull (isLoading w) (storage w ++ [RemoveItem "token"])
                    (alerts w) (S (S (S (fetches w)))),
            Api.mkEffects 3 [1000; 2000]).
Proof.
  intros H0 H1 H2. unfold fetchUserInfo, Api.retryApiRequest.
  simpl. unfold fetchUserData. cbn [negb].
  rewrite H0. cbn [fetches fetched]. rewrite H1. cbn [fetches fetched]. rewrite H2.
  reflexivity.
Qed.

Lemma fetchUserInfo_network_failure_logs_out_after_three_witness :
  fetchUserInfo true (λ _, FetchRejects Samples.networkError)
    (mkWorld (JStr "ann") (JStr "t0k3n") false [] [] 0)
  = Some (mkWorld JNull JNull false [RemoveItem "token"] [] 3, Api.mkEffects 3 [1000; 2000]).
Proof.
  exact (fetchUserInfo_network_failure_logs_out_after_three
           (λ _, FetchRejects Samples.networkError)
           (mkWorld (JStr "ann") (JStr "t0k3n") false [] [] 0)
           Samples.networkError Samples.networkError Samples.networkError
           eq_refl eq_refl eq_refl).
Defined.

(** X22.  [login] sends one request and always clears [isLoading].  It
    answers [true] exactly for an [ok] response whose JSON body is not
    null and whose token [localStorage.setItem] accepted, and then [token]
    and the stored token are the [access_token] of the body and [user] is
    its [user], without an alert.  When it answers [false], exactly one
    alert is shown and the storage is untouched; [user] and [token] are
    untouched too, except when the response was [ok] with a body and
    [setItem] raised: then both were already set from the body. *)
Theorem login_outcomes (net : network) (setItemThrows : bool) (w : world) :
  isLoading (snd (login net setItemThrows w)) = false ∧
  fetches (snd (login net setItemThrows w)) = S (fetches w) ∧
  (fst (login net setItemThrows w) = true ↔
   ∃ data, net (fetches w) = FetchResponds true (inr data) ∧ nullish data = false ∧
           setItemThrows = false) ∧
  (∀ data, net (fetches w) = FetchResponds true (inr data) → nullish data = false →
     token (snd (login net setItemThrows w)) = get data "access_token" ∧
     user (snd (login net setItemThrows w)) = get data "user" ∧
     (setItemThrows = false →
      storage (snd (login net setItemThrows w))
        = (storage w ++ [SetItem "token" (get data "access_token")])%list ∧
      alerts (snd (login net setItemThrows w)) = alerts w)) ∧
  (fst (login net setItemThrows w) = false →
     storage (snd (login net setItemThrows w)) = storage w ∧
     length (alerts (snd (login net setItemThrows w))) = S (length (alerts w)) ∧
     ((user (snd (login net setItemThrows w)) = user w ∧
       token (snd (login net setItemThrows w)) = token w) ∨
      (setItemThrows = true ∧
       ∃ data, net (fetches w) = FetchResponds true (inr data) ∧ nullish data = false))).
Proof.
  unfold login.
  destruct (net (fetches w)) as [err|[|] [err|body]]; try destruct (nullish body) eqn:Hn;
    try destruct setItemThrows;
    cbn [fst snd isLoading fetches setIsLoading fetched alert localStorage setUser setToken
         user token storage alerts];
    rewrite ?length_app; cbn [length];
    (split; [reflexivity|]); (split; [reflexivity|]);
    (split; [split; [try discriminate; eauto|
                     intros (data & Heq & Hd & Ht); inversion Heq; subst; congruence]|]);
    (split; [intros data Heq Hd; inversion Heq; subst; try congruence;
             repeat split; try reflexivity; intros; discriminate|]);
    try discriminate; intros _;
    (split; [reflexivity|]); (split; [lia|]);
    first [left; split; reflexivity | right; split; [reflexivity|eauto]].
Qed.

Lemma login_outcomes_witness :
  let w := mkWorld JNull JNull false [] [] 0 in
  let body := JObj [("access_token", JStr "t0k3n"); ("user", JStr "ann")] in
  fst (login (λ _, FetchResponds true (inr body)) true w) = false ∧
  token (snd (login (λ _, FetchResponds true (inr body)) true w)) = JStr "t0k3n" ∧
  user (snd (login (λ _, FetchResponds true (inr body)) true w)) = JStr "ann" ∧
  storage (snd (login (λ _, FetchResponds true (inr body)) true w)) = [].
Proof.
  intros w body.
  pose proof (login_outcomes (λ _, FetchResponds true (inr body)) true w)
    as (_ & _ & _ & Hset & Hfalse).
  destruct (Hset body eq_refl eq_refl) as (Htok & Husr & _).
  destruct (Hfalse eq_refl) as (Hsto & _).
  repeat split; assumption.
Defined.

(** X23.  [register] never signs the user in: whatever the answer, [user],
    [token] and the storage are untouched, one request is sent, exactly
    one alert is shown and [isLoading] is cleared.  It answers [true]
    exactly for an [ok] response whose JSON body could be read. *)
Theorem register_never_changes_session (net : network) (w : world) :
  user (snd (register net w)) = user w ∧
  token (snd (register net w)) = token w ∧
  storage (snd (register net w)) = storage w ∧
  isLoading (snd (register net w)) = false ∧
  fetches (snd (register net w)) = S (fetches w) ∧
  length (alerts (snd (register net w))) = S (length (alerts w)) ∧
  (fst (register net w) = true ↔
   ∃ userData, net (fetches w) = FetchResponds true (inr userData)).
Proof.
  unfold register.
  destruct (net (fetches w)) as [err|[|] [err|body]]; try destruct (nullish body);
    cbn [fst snd isLoading fetches setIsLoading fetched alert user token storage alerts];
    rewrite ?length_app; cbn [length];
    repeat (split; [first [reflexivity | lia]|]);
    try (split; [try discriminate; eauto|]);
    intros (userData & Heq); congruence.
Qed.

End AuthFacts.
